(** * Warning-ledger bot (src/bot.py): a shallow embedding and its properties

    The embedding follows src/bot.py function by function.

    - SQLite tables are lists of rows kept in rowid order.  The [warns] table
      carries its AUTOINCREMENT counter (the [sqlite_sequence] entry).
    - A Python [str] is a Rocq [string], one [ascii] per character.  The
      Unicode-dependent builtins used by the code ([str.lower],
      [str.isspace], the regex class [\w], [int(...)]) are the fields of the
      class [PyText]; nothing is assumed about them.
    - Chat and user identifiers are Python integers supplied by the platform
      and are modelled as [Z]; they are taken to fit SQLite's 64-bit INTEGER.
      The amnesty count is typed by a user, so its binding is modelled: a
      count outside the 64-bit range makes the [sqlite3] module raise
      [OverflowError] before the statement runs.
    - Handlers run in a small state-and-exception monad over the database,
      the clock and the list of replies sent.  A handler runs from start to
      end without another one in between, and sending a reply succeeds. *)

From Stdlib Require Import ZArith List String Ascii Bool Lia.
From Stdlib Require Import Permutation Sorted.
From Stdlib Require Import DecimalString.
Import ListNotations.

Local Open Scope Z_scope.

(** ** Python text builtins *)

Class PyText : Type := {
  py_lower   : string -> string;   (* str.lower() *)
  py_isspace : ascii -> bool;      (* str.isspace() on one character *)
  py_isword  : ascii -> bool;      (* the regex class \w *)
  py_int     : string -> option Z  (* int(s); None stands for ValueError *)
}.

Definition truthy (s : string) : bool :=
  match s with EmptyString => false | String _ _ => true end.

(** [x or None] for an optional string. *)
Definition or_none (x : option string) : option string :=
  match x with
  | Some s => if truthy s then Some s else None
  | None => None
  end.

(** Index normalisation of a Python slice bound on a sequence of length [n]. *)
Definition slice_bound (n i : Z) : Z :=
  if i <? 0 then Z.max (i + n) 0 else Z.min i n.

(** [text[a:b]] *)
Definition py_slice (text : string) (a b : Z) : string :=
  let n := Z.of_nat (String.length text) in
  let a' := slice_bound n a in
  let b' := slice_bound n b in
  substring (Z.to_nat a') (Z.to_nat (b' - a')) text.

Definition at_sign : ascii := "@"%char.

(** [s.lstrip("@")] *)
Fixpoint lstrip_at (s : string) : string :=
  match s with
  | String c r => if Ascii.eqb c at_sign then lstrip_at r else s
  | EmptyString => EmptyString
  end.

Section TextOps.
Context `{PyText}.

Fixpoint py_lstrip (s : string) : string :=
  match s with
  | String c r => if py_isspace c then py_lstrip r else s
  | EmptyString => EmptyString
  end.

Fixpoint py_rstrip (s : string) : string :=
  match s with
  | EmptyString => EmptyString
  | String c r =>
      let r' := py_rstrip r in
      if negb (truthy r') && py_isspace c then EmptyString else String c r'
  end.

(** [s.strip()] *)
Definition py_strip (s : string) : string := py_rstrip (py_lstrip s).

(** [s.split()]: maximal runs of non-space characters. *)
Fixpoint py_split_from (cur : string) (s : string) : list string :=
  match s with
  | EmptyString => if truthy cur then [cur] else []
  | String c r =>
      if py_isspace c
      then (if truthy cur then cur :: py_split_from EmptyString r
            else py_split_from EmptyString r)
      else py_split_from (cur ++ String c EmptyString)%string r
  end.

Definition py_split (s : string) : list string := py_split_from EmptyString s.

Definition starts_with_word (s : string) : bool :=
  match s with String d _ => py_isword d | EmptyString => false end.

(** [re.sub(r"@\w+", "", s)]: [inside] records that the scan is within a
    match, where further word characters are consumed greedily. *)
Fixpoint re_sub_from (inside : bool) (s : string) : string :=
  match s with
  | EmptyString => EmptyString
  | String c r =>
      if inside && py_isword c then re_sub_from true r
      else if Ascii.eqb c at_sign && starts_with_word r then re_sub_from true r
      else String c (re_sub_from false r)
  end.

Definition re_sub_mentions (s : string) : string := re_sub_from false s.

(** [clean_reason], bot.py 284-288 *)
Definition clean_reason (args : option string) : string :=
  match args with
  | None => EmptyString
  | Some a => if truthy a then py_strip (re_sub_mentions a) else EmptyString
  end.
End TextOps.

(** ** Platform objects (the parts of aiogram's types the code reads) *)

Record User : Type := mkUser {
  u_id : Z;
  u_username : option string;
  u_first_name : string;
  u_last_name : option string
}.

(** aiogram's [User.full_name] property. *)
Definition user_full_name (u : User) : string :=
  match u_last_name u with
  | Some l => if truthy l then (u_first_name u ++ " " ++ l)%string else u_first_name u
  | None => u_first_name u
  end.

Record Chat : Type := mkChat { chat_id : Z; chat_type : string }.

Record MessageEntity : Type := mkEntity {
  e_type : string;
  e_offset : Z;
  e_length : Z;
  e_user : option User
}.

(** Of the replied-to message the code reads [from_user] only. *)
Record RepliedMessage : Type := mkReplied { r_from_user : option User }.

Record Message : Type := mkMessage {
  from_user : option User;
  chat : Chat;
  reply_to_message : option RepliedMessage;
  text : option string;
  caption : option string;
  entities : option (list MessageEntity)
}.

(** ** Tables *)

Record WarnRow : Type := mkWarn {
  w_id : Z;
  w_chat_id : Z;
  w_user_id : Z;
  w_user_name : option string;
  w_warn_type : string;
  w_reason : option string;
  w_given_by_id : option Z;
  w_given_by_name : option string;
  w_created_at : string
}.

Record ParticipantRow : Type := mkParticipant {
  p_chat_id : Z;
  p_user_id : Z;
  p_username : option string;
  p_username_lower : option string;
  p_first_name : option string;
  p_last_name : option string;
  p_updated_at : string
}.

Record DB : Type := mkDB {
  warns : list WarnRow;
  warns_seq : Z;              (* largest rowid ever assigned in [warns] *)
  participants : list ParticipantRow
}.

(** [db_init] on a fresh file. *)
Definition db_init : DB := mkDB [] 0 [].

Definition max_rowid : Z := 9223372036854775807.
Definition min_int64 : Z := -9223372036854775808.

Definition fits_int64 (z : Z) : bool := (min_int64 <=? z) && (z <=? max_rowid).

Inductive PyExn : Type :=
| AttributeError
| IntegrityError          (* CHECK constraint failed *)
| OperationalError        (* SQLITE_FULL: no rowid left *)
| OverflowError           (* Python int too large for SQLite INTEGER *)
| TelegramBadRequest
| TelegramForbiddenError
| TelegramNetworkError
| TelegramRetryAfter
| TelegramServerError
| OtherError (name : string).

(** ** Access list, bot.py 21-29 *)

Definition ALLOWED_USER_IDS : list Z :=
  [578664673; 921799469; 5253999365; 824111058].

Definition is_allowed (user_id : option Z) : bool :=
  match user_id with
  | Some i => existsb (Z.eqb i) ALLOWED_USER_IDS
  | None => false
  end.

(** ** Participant directory, bot.py 72-112 *)

Definition same_participant (c u : Z) (p : ParticipantRow) : bool :=
  (p_chat_id p =? c) && (p_user_id p =? u).

(** INSERT ... ON CONFLICT(chat_id, user_id) DO UPDATE: an existing row is
    overwritten in place (it keeps its rowid), a new one gets the next rowid. *)
Fixpoint upsert_row (row : ParticipantRow) (rows : list ParticipantRow)
  : list ParticipantRow :=
  match rows with
  | [] => [row]
  | p :: rest =>
      if same_participant (p_chat_id row) (p_user_id row) p
      then row :: rest
      else p :: upsert_row row rest
  end.

Section Directory.
Context `{PyText}.

Definition participant_row (c : Z) (user : User) (now : string) : ParticipantRow :=
  let username := or_none (u_username user) in
  let username_lower :=
    or_none (Some (py_lower (match username with Some s => s | None => EmptyString end))) in
  let first_name := or_none (Some (u_first_name user)) in
  let last_name := or_none (u_last_name user) in
  mkParticipant c (u_id user) username username_lower first_name last_name now.

Definition participant_upsert (c : Z) (user : option User) (now : string) (db : DB) : DB :=
  match user with
  | None => db
  | Some u =>
      mkDB (warns db) (warns_seq db)
           (upsert_row (participant_row c u now) (participants db))
  end.
End Directory.

Definition handle_matches (c : Z) (username_lower : string) (p : ParticipantRow) : bool :=
  (p_chat_id p =? c) &&
  match p_username_lower p with
  | Some s => String.eqb s username_lower
  | None => false
  end.

(** What [find_participant_by_username] returns: [SimpleNamespace(id, full_name)]. *)
Record Found : Type := mkFound { f_id : Z; f_full_name : string }.

Definition opt_truthy (x : option string) : list string :=
  match or_none x with Some s => [s] | None => [] end.

(** [" ".join(xs)] for the at most two names kept. *)
Definition join_names (xs : list string) : string :=
  match xs with
  | [] => EmptyString
  | [a] => a
  | a :: b :: _ => (a ++ " " ++ b)%string
  end.

Definition found_full_name (p : ParticipantRow) : string :=
  let joined := join_names (opt_truthy (p_first_name p) ++ opt_truthy (p_last_name p)) in
  if truthy joined then joined
  else match or_none (p_username p) with
       | Some u => ("@" ++ u)%string
       | None => "user"%string
       end.

(** The SELECT is served by the index on (chat_id, username_lower); among
    matching rows [fetchone] yields the one of least rowid. *)
Definition find_participant_by_username (c : Z) (username_lower : string) (db : DB)
  : option Found :=
  match find (handle_matches c username_lower) (participants db) with
  | Some p => Some (mkFound (p_user_id p) (found_full_name p))
  | None => None
  end.

(** ** Warning ledger, bot.py 114-219 *)

Definition valid_warn_type (k : string) : bool :=
  String.eqb k "warn" || String.eqb k "hard".

(** SQLite allocates the rowid of the new row before it tests the CHECK
    constraint: with no rowid left the INSERT fails as full, whatever the
    kind. *)
Definition add_warn (c u : Z) (user_name : string) (warn_type : string)
    (reason : option string) (given_by_id : option Z) (given_by_name : option string)
    (now : string) (db : DB) : PyExn + DB :=
  if max_rowid <=? warns_seq db then inl OperationalError
  else if negb (valid_warn_type warn_type) then inl IntegrityError
  else
    let i := warns_seq db + 1 in
    let r := match or_none reason with Some s => s | None => EmptyString end in
    inr (mkDB (warns db ++ [mkWarn i c u (Some user_name) warn_type (Some r)
                                   given_by_id given_by_name now])
              i (participants db)).

Definition of_pair (c u : Z) (r : WarnRow) : bool :=
  (w_chat_id r =? c) && (w_user_id r =? u).

(** ORDER BY created_at DESC, id DESC: [a] is listed no later than [b]. *)
Definition listed_before (a b : WarnRow) : bool :=
  match String.compare (w_created_at b) (w_created_at a) with
  | Lt => true
  | Eq => w_id b <=? w_id a
  | Gt => false
  end.

Fixpoint insert_by (r : WarnRow) (l : list WarnRow) : list WarnRow :=
  match l with
  | [] => [r]
  | x :: t => if listed_before r x then r :: l else x :: insert_by r t
  end.

Definition order_by_recency (l : list WarnRow) : list WarnRow :=
  fold_right insert_by [] l.

(** The columns selected by [get_user_warns]:
    id, warn_type, reason, created_at, given_by_name. *)
Definition WarnView : Type := (Z * string * option string * string * option string)%type.

Definition view (r : WarnRow) : WarnView :=
  (w_id r, w_warn_type r, w_reason r, w_created_at r, w_given_by_name r).

Definition get_user_warns (c u : Z) (db : DB) : list WarnView :=
  map view (order_by_recency (filter (of_pair c u) (warns db))).

(** GROUP BY warn_type with COUNT of each group. *)
Fixpoint bump (k : string) (acc : list (string * Z)) : list (string * Z) :=
  match acc with
  | [] => [(k, 1)]
  | (k', n) :: t => if String.eqb k k' then (k', n + 1) :: t else (k', n) :: bump k t
  end.

Definition group_count (ks : list string) : list (string * Z) :=
  fold_left (fun acc k => bump k acc) ks [].

(** [data.get(k, default)] *)
Definition dict_get (data : list (string * Z)) (k : string) (default : Z) : Z :=
  match find (fun p => String.eqb (fst p) k) data with
  | Some p => snd p
  | None => default
  end.

Definition get_user_counts (c u : Z) (db : DB) : Z * Z :=
  let data := group_count (map w_warn_type (filter (of_pair c u) (warns db))) in
  (dict_get data "warn" 0, dict_get data "hard" 0).

(** SQL LIMIT: a negative bound means no bound. *)
Definition sql_limit {A : Type} (n : Z) (l : list A) : list A :=
  if n <? 0 then l else firstn (Z.to_nat n) l.

Definition in_scope (kind : string) (r : WarnRow) : bool :=
  if valid_warn_type kind then String.eqb (w_warn_type r) kind else true.

Definition qualifying (c u : Z) (kind : string) (db : DB) : list WarnRow :=
  filter (fun r => of_pair c u r && in_scope kind r) (warns db).

(** The rows picked by the inner SELECT ... ORDER BY ... LIMIT. *)
Definition amnesty_victims (c u count : Z) (kind : string) (db : DB) : list WarnRow :=
  sql_limit count (order_by_recency (qualifying c u kind db)).

Definition id_in (ids : list Z) (r : WarnRow) : bool := existsb (Z.eqb (w_id r)) ids.

Definition delete_ids (ids : list Z) (db : DB) : DB :=
  mkDB (filter (fun r => negb (id_in ids r)) (warns db)) (warns_seq db) (participants db).

Definition amnesty_partial (c u count : Z) (kind : string) (db : DB) : PyExn + DB :=
  if negb (fits_int64 count) then inl OverflowError
  else inr (delete_ids (map w_id (amnesty_victims c u count kind db)) db).

Definition amnesty_full (c u : Z) (db : DB) : DB :=
  mkDB (filter (fun r => negb (of_pair c u r)) (warns db)) (warns_seq db) (participants db).

(** [get_all_counts], bot.py 168-183.  SQL leaves the order among rows with
    equal (total, hard_cnt) to the engine; here such rows keep ascending
    user_id.  No theorem below depends on that order. *)
Fixpoint insert_uid (u : Z) (l : list Z) : list Z :=
  match l with
  | [] => [u]
  | x :: t => if u <? x then u :: l else if u =? x then l else x :: insert_uid u t
  end.

Definition sql_max_text (a : option string) (b : option string) : option string :=
  match a, b with
  | Some x, Some y => if String.ltb x y then Some y else Some x
  | Some x, None => Some x
  | None, y => y
  end.

Definition count_kind (k : string) (rows : list WarnRow) : Z :=
  Z.of_nat (List.length (filter (fun r => String.eqb (w_warn_type r) k) rows)).

Definition SummaryRow : Type := (Z * string * Z * Z)%type.

Definition summary_of (rows : list WarnRow) (u : Z) : SummaryRow :=
  let mine := filter (fun r => w_user_id r =? u) rows in
  let name := match fold_left sql_max_text (map w_user_name mine) None with
              | Some s => s | None => EmptyString end in
  (u, name, count_kind "warn" mine, count_kind "hard" mine).

Definition summary_before (a b : SummaryRow) : bool :=
  let '(_, _, wa, ha) := a in
  let '(_, _, wb, hb) := b in
  (wb + hb <? wa + ha) || ((wb + hb =? wa + ha) && (hb <=? ha)).

Fixpoint insert_summary (r : SummaryRow) (l : list SummaryRow) : list SummaryRow :=
  match l with
  | [] => [r]
  | x :: t => if summary_before r x then r :: l else x :: insert_summary r t
  end.

Definition get_all_counts (c : Z) (db : DB) : list SummaryRow :=
  let rows := filter (fun r => w_chat_id r =? c) (warns db) in
  let users := fold_right insert_uid [] (map w_user_id rows) in
  fold_right insert_summary [] (map (summary_of rows) users).

(** ** Replies

    Each constructor stands for one reply template of bot.py and keeps the
    values substituted into it; the markup itself is not modelled. *)

Inductive Command : Type :=
| Start | Help | Warn | HardWarn | Warns | AllWarns | Amnesty | FullAmnesty.

Inductive Reply : Type :=
| R_AccessDenied                      (* "Доступ запрещён." *)
| R_Greeting                          (* on_start *)
| R_HelpText                          (* on_help *)
| R_GroupsOnly                        (* "Эта команда предназначена для групп/супергрупп." *)
| R_AdminsOnly (cmd : Command)        (* "Только администраторы могут ..." *)
| R_WhomPrompt (cmd : Command)        (* "Кому ...? Сделайте команду ответом ..." *)
| R_WarnIssued (cmd : Command) (target : Z) (name reason : string)
| R_NoWarns (user : Z) (name : string)
| R_WarnsList (user : Z) (name : string) (warn_cnt hard_cnt : Z)
              (shown : list WarnView) (omitted : option Z)
| R_NoWarnsInChat
| R_ChatSummary (rows : list SummaryRow)
| R_BadArguments                      (* "Неверные аргументы. ..." *)
| R_AmnestyApplied (target : Z) (name : string) (count : Z) (kind : string)
                   (warn_cnt hard_cnt : Z)
| R_FullAmnestyApplied (target : Z) (name : string).

(** ** The handler monad *)

Record Env : Type := mkEnv {
  get_chat_member : Z -> Z -> PyExn + string;   (* raises, or the member's status *)
  utcnow : nat -> string                        (* the n-th reading of the clock *)
}.

Record World : Type := mkWorld {
  st_db : DB;
  st_tick : nat;
  st_sent : list Reply
}.

Inductive Outcome (A : Type) : Type :=
| Done (a : A) (w : World)
| Raised (e : PyExn) (w : World).
Arguments Done {A} a w.
Arguments Raised {A} e w.

Definition M (A : Type) : Type := Env -> World -> Outcome A.

Definition ret {A} (a : A) : M A := fun _ w => Done a w.

Definition bind {A B} (m : M A) (k : A -> M B) : M B :=
  fun env w =>
    match m env w with
    | Done a w' => k a env w'
    | Raised e w' => Raised e w'
    end.

Definition raise {A} (e : PyExn) : M A := fun _ w => Raised e w.

Declare Scope handler_scope.
Delimit Scope handler_scope with handler.
Notation "x <- m ;; k" := (bind m (fun x => k))
  (at level 61, m at next level, right associativity) : handler_scope.
Notation "m ;; k" := (bind m (fun _ => k))
  (at level 61, right associativity) : handler_scope.
Local Open Scope handler_scope.

Definition answer (r : Reply) : M unit :=
  fun _ w => Done tt (mkWorld (st_db w) (st_tick w) (st_sent w ++ [r])).

Definition read_clock : M string :=
  fun env w => Done (utcnow env (st_tick w)) (mkWorld (st_db w) (S (st_tick w)) (st_sent w)).

Definition query {A} (q : DB -> A) : M A := fun _ w => Done (q (st_db w)) w.

Definition update (f : DB -> DB) : M unit :=
  fun _ w => Done tt (mkWorld (f (st_db w)) (st_tick w) (st_sent w)).

Definition try_update (f : DB -> PyExn + DB) : M unit :=
  fun _ w =>
    match f (st_db w) with
    | inr db' => Done tt (mkWorld db' (st_tick w) (st_sent w))
    | inl e => Raised e w
    end.

Definition call_get_chat_member (c u : Z) : M (PyExn + string) :=
  fun env w => Done (get_chat_member env c u) w.

(** ** Utilities, bot.py 225-282 *)

(** [is_admin]: only [TelegramBadRequest] is caught. *)
Definition is_admin (c u : Z) : M bool :=
  r <- call_get_chat_member c u ;;
  match r with
  | inr status => ret (String.eqb status "administrator" || String.eqb status "creator")
  | inl TelegramBadRequest => ret false
  | inl e => raise e
  end.

Definition reply_author (message : Message) : option User :=
  match reply_to_message message with
  | Some r => r_from_user r
  | None => None
  end.

Section Handlers.
Context `{PyText}.

Definition upsert_now (c : Z) (user : option User) : M unit :=
  match user with
  | None => ret tt
  | Some _ => now <- read_clock ;; update (participant_upsert c user now)
  end.

Definition track_message_participants (message : Message) : M unit :=
  upsert_now (chat_id (chat message)) (from_user message) ;;
  upsert_now (chat_id (chat message)) (reply_author message).

Definition message_text (message : Message) : string :=
  match or_none (text message) with
  | Some t => t
  | None => match or_none (caption message) with
            | Some t => t
            | None => EmptyString
            end
  end.

Definition is_mention (ent : MessageEntity) : bool := String.eqb (e_type ent) "mention".

Definition mention_text (txt : string) (ent : MessageEntity) : string :=
  py_slice txt (e_offset ent) (e_offset ent + e_length ent).

Definition extract_mention_username (message : Message) : option string :=
  match entities message with
  | None | Some [] => None
  | Some ents =>
      let mentions := map (mention_text (message_text message)) (filter is_mention ents) in
      match rev mentions with
      | [] => None
      | last :: _ => or_none (Some (py_strip (lstrip_at last)))
      end
  end.

(** The subject of a command: a platform user, or a directory entry. *)
Inductive Target : Type :=
| TUser (u : User)
| TFound (f : Found).

Definition target_id (t : Target) : Z :=
  match t with TUser u => u_id u | TFound f => f_id f end.

Definition target_full_name (t : Target) : string :=
  match t with TUser u => user_full_name u | TFound f => f_full_name f end.

(** [getattr(target, "full_name", None) or "user"] *)
Definition target_label (t : Target) : string :=
  if truthy (target_full_name t) then target_full_name t else "user"%string.

Definition is_text_mention (ent : MessageEntity) : bool :=
  String.eqb (e_type ent) "text_mention" &&
  match e_user ent with Some _ => true | None => false end.

Definition first_text_mention (message : Message) : option User :=
  match entities message with
  | None => None
  | Some ents =>
      match find is_text_mention ents with
      | Some ent => e_user ent
      | None => None
      end
  end.

Definition extract_target_user (message : Message) (db : DB) : option Target :=
  match reply_author message with
  | Some u => Some (TUser u)
  | None =>
      match first_text_mention message with
      | Some u => Some (TUser u)
      | None =>
          match extract_mention_username message with
          | Some uname =>
              match find_participant_by_username
                      (chat_id (chat message)) (py_lower uname) db with
              | Some f => Some (TFound f)
              | None => None
              end
          | None => None
          end
      end
  end.
End Handlers.

(** ** Routes, bot.py 296-524 *)

Section Routes.
Context `{PyText}.

(** [message.from_user.id] on a message without sender raises. *)
Definition require_sender (message : Message) : M User :=
  match from_user message with
  | Some u => ret u
  | None => raise AttributeError
  end.

Definition in_group (message : Message) : bool :=
  String.eqb (chat_type (chat message)) "group" ||
  String.eqb (chat_type (chat message)) "supergroup".

Definition command_args (command : option (option string)) : option string :=
  match command with
  | Some a => a
  | None => None
  end.

Definition on_start (message : Message) : M unit :=
  sender <- require_sender message ;;
  if negb (is_allowed (Some (u_id sender))) then answer R_AccessDenied
  else
    track_message_participants message ;;
    answer R_Greeting.

Definition on_help (message : Message) : M unit :=
  sender <- require_sender message ;;
  if negb (is_allowed (Some (u_id sender))) then answer R_AccessDenied
  else
    track_message_participants message ;;
    answer R_HelpText.

(** The bodies of [cmd_warn] and [cmd_hardwarn] differ in the stored
    warn_type and in the reply texts only. *)
Definition issue (cmd : Command) (warn_type : string)
    (message : Message) (command : option (option string)) : M unit :=
  sender <- require_sender message ;;
  if negb (is_allowed (Some (u_id sender))) then answer R_AccessDenied
  else
    track_message_participants message ;;
    if negb (in_group message) then answer R_GroupsOnly
    else
      admin <- is_admin (chat_id (chat message)) (u_id sender) ;;
      if negb admin then answer (R_AdminsOnly cmd)
      else
        target <- query (extract_target_user message) ;;
        match target with
        | None => answer (R_WhomPrompt cmd)
        | Some t =>
            let reason := clean_reason (command_args command) in
            now <- read_clock ;;
            try_update (add_warn (chat_id (chat message)) (target_id t) (target_label t)
                                 warn_type (Some reason) (Some (u_id sender))
                                 (Some (user_full_name sender)) now) ;;
            answer (R_WarnIssued cmd (target_id t) (target_label t) reason)
        end.

Definition cmd_warn : Message -> option (option string) -> M unit := issue Warn "warn".

Definition cmd_hardwarn : Message -> option (option string) -> M unit := issue HardWarn "hard".

Definition cmd_warns (message : Message) : M unit :=
  sender <- require_sender message ;;
  if negb (is_allowed (Some (u_id sender))) then answer R_AccessDenied
  else
    track_message_participants message ;;
    target <- query (extract_target_user message) ;;
    let user := match target with Some t => t | None => TUser sender end in
    rows <- query (get_user_warns (chat_id (chat message)) (target_id user)) ;;
    counts <- query (get_user_counts (chat_id (chat message)) (target_id user)) ;;
    match rows with
    | [] => answer (R_NoWarns (target_id user) (target_label user))
    | _ :: _ =>
        let n := Z.of_nat (List.length rows) in
        answer (R_WarnsList (target_id user) (target_label user) (fst counts) (snd counts)
                            (firstn 20 rows)
                            (if 20 <? n then Some (n - 20) else None))
    end.

Definition cmd_allwarns (message : Message) : M unit :=
  sender <- require_sender message ;;
  if negb (is_allowed (Some (u_id sender))) then answer R_AccessDenied
  else
    track_message_participants message ;;
    data <- query (get_all_counts (chat_id (chat message))) ;;
    match data with
    | [] => answer R_NoWarnsInChat
    | _ :: _ => answer (R_ChatSummary data)
    end.

Definition scope_word (w : string) : bool :=
  String.eqb w "warn" || String.eqb w "hard" || String.eqb w "all".

(** The tokens the amnesty arguments are read from:
    [re.sub(r"@\w+", "", args).split()]. *)
Definition amnesty_parts (args : string) : list string :=
  py_split (re_sub_mentions args).

(** bot.py 476-487: the count and the scope read from the arguments. *)
Definition parse_amnesty (command : option (option string)) : option Z * string :=
  let args := match command_args command with
              | Some a => py_strip a
              | None => EmptyString
              end in
  if truthy args then
    match amnesty_parts args with
    | [] => (None, "all"%string)
    | p0 :: rest =>
        (py_int p0,
         match rest with
         | p1 :: _ => if scope_word (py_lower p1) then py_lower p1 else "all"%string
         | [] => "all"%string
         end)
    end
  else (None, "all"%string).

Definition count_rejected (count : option Z) : bool :=
  match count with
  | None => true
  | Some n => (n =? 0) || (n <=? 0)
  end.

Definition cmd_amnesty (message : Message) (command : option (option string)) : M unit :=
  sender <- require_sender message ;;
  if negb (is_allowed (Some (u_id sender))) then answer R_AccessDenied
  else
    track_message_participants message ;;
    if negb (in_group message) then answer R_GroupsOnly
    else
      admin <- is_admin (chat_id (chat message)) (u_id sender) ;;
      if negb admin then answer (R_AdminsOnly Amnesty)
      else
        target <- query (extract_target_user message) ;;
        match target with
        | None => answer (R_WhomPrompt Amnesty)
        | Some t =>
            let '(count, kind) := parse_amnesty command in
            if count_rejected count then answer R_BadArguments
            else
              let n := match count with Some n => n | None => 0 end in
              try_update (amnesty_partial (chat_id (chat message)) (target_id t) n kind) ;;
              counts <- query (get_user_counts (chat_id (chat message)) (target_id t)) ;;
              answer (R_AmnestyApplied (target_id t) (target_label t) n kind
                                       (fst counts) (snd counts))
        end.

Definition cmd_full_amnesty (message : Message) : M unit :=
  sender <- require_sender message ;;
  if negb (is_allowed (Some (u_id sender))) then answer R_AccessDenied
  else
    track_message_participants message ;;
    if negb (in_group message) then answer R_GroupsOnly
    else
      admin <- is_admin (chat_id (chat message)) (u_id sender) ;;
      if negb admin then answer (R_AdminsOnly FullAmnesty)
      else
        target <- query (extract_target_user message) ;;
        match target with
        | None => answer (R_WhomPrompt FullAmnesty)
        | Some t =>
            update (amnesty_full (chat_id (chat message)) (target_id t)) ;;
            answer (R_FullAmnestyApplied (target_id t) (target_label t))
        end.

(** The router: one handler per command. *)
Definition handle (cmd : Command) (message : Message) (command : option (option string))
  : M unit :=
  match cmd with
  | Start => on_start message
  | Help => on_help message
  | Warn => cmd_warn message command
  | HardWarn => cmd_hardwarn message command
  | Warns => cmd_warns message
  | AllWarns => cmd_allwarns message
  | Amnesty => cmd_amnesty message command
  | FullAmnesty => cmd_full_amnesty message
  end.

(** Commands guarded by the administrator check. *)
Definition mutating (cmd : Command) : bool :=
  match cmd with
  | Warn | HardWarn | Amnesty | FullAmnesty => true
  | _ => false
  end.

(** Commands that resolve a subject. *)
Definition resolves_target (cmd : Command) : bool :=
  match cmd with
  | Warn | HardWarn | Warns | Amnesty | FullAmnesty => true
  | _ => false
  end.

End Routes.

(** ** The builtins on Latin-1 text

    For characters below U+0100 the four builtins are small tables; this
    instance runs the model on concrete messages. *)

Definition code (c : ascii) : N := N_of_ascii c.

Definition between (lo hi : N) (c : ascii) : bool :=
  (N.leb lo (code c) && N.leb (code c) hi)%bool.

Definition latin1_lower_char (c : ascii) : ascii :=
  if between 65 90 c || between 192 214 c || between 216 222 c
  then ascii_of_N (code c + 32) else c.

Fixpoint latin1_lower (s : string) : string :=
  match s with
  | EmptyString => EmptyString
  | String c r => String (latin1_lower_char c) (latin1_lower r)
  end.

Definition latin1_isspace (c : ascii) : bool :=
  between 9 13 c || between 28 32 c || N.eqb (code c) 133 || N.eqb (code c) 160.

Definition latin1_isword (c : ascii) : bool :=
  between 48 57 c || between 65 90 c || between 97 122 c || N.eqb (code c) 95
  || N.eqb (code c) 170 || between 178 179 c || N.eqb (code c) 181
  || between 185 186 c || between 188 190 c
  || between 192 214 c || between 216 246 c || between 248 255 c.

Definition is_digit (c : ascii) : bool := between 48 57 c.

Definition digit_value (c : ascii) : Z := Z.of_N (code c) - 48.

(** Decimal digits, single underscores allowed between digits. *)
Fixpoint digits_from (acc : Z) (after_digit : bool) (s : string) : option Z :=
  match s with
  | EmptyString => if after_digit then Some acc else None
  | String c r =>
      if is_digit c then digits_from (10 * acc + digit_value c) true r
      else if Ascii.eqb c "_"%char && after_digit then digits_from acc false r
      else None
  end.

Fixpoint digit_count (s : string) : nat :=
  match s with
  | EmptyString => 0%nat
  | String c r => if is_digit c then S (digit_count r) else digit_count r
  end.

(** [int(s)] of CPython 3.11 and later: a numeral of more than 4300 digits
    is refused with ValueError. *)
Definition latin1_int (s : string) : option Z :=
  if (4300 <? digit_count s)%nat then None
  else
    match s with
    | String "-"%char r => option_map Z.opp (digits_from 0 false r)
    | String "+"%char r => digits_from 0 false r
    | _ => digits_from 0 false s
    end.

#[export] Instance Latin1 : PyText := {
  py_lower := latin1_lower;
  py_isspace := latin1_isspace;
  py_isword := latin1_isword;
  py_int := latin1_int
}.

Definition run {A} (m : M A) (env : Env) (w : World) : Outcome A := m env w.

(** ** Notions used to state the properties *)

Section Notions.
Context `{PyText}.

(** The handle carried by a mention entity of the message. *)
Definition handle_of (message : Message) (ent : MessageEntity) : string :=
  py_strip (lstrip_at (py_slice (message_text message) (e_offset ent)
                                (e_offset ent + e_length ent))).

(** The state in which [track_message_participants] leaves the world. *)
Definition after_tracking (message : Message) (env : Env) (w : World) : World :=
  match track_message_participants message env w with
  | Done _ w' => w'
  | Raised _ w' => w'
  end.

(** The reply of [cmd_warns] about a subject. *)
Definition warns_reply (c : Z) (user : Target) (db : DB) : Reply :=
  let rows := get_user_warns c (target_id user) db in
  let counts := get_user_counts c (target_id user) db in
  match rows with
  | [] => R_NoWarns (target_id user) (target_label user)
  | _ :: _ =>
      let n := Z.of_nat (List.length rows) in
      R_WarnsList (target_id user) (target_label user) (fst counts) (snd counts)
                  (firstn 20 rows) (if 20 <? n then Some (n - 20) else None)
  end.

End Notions.

Definition admin_status (status : string) : bool :=
  String.eqb status "administrator" || String.eqb status "creator".

(** The membership query answers with a status that is not an
    administrator's, or fails with a bad request. *)
Definition admin_denied (env : Env) (c u : Z) : bool :=
  match get_chat_member env c u with
  | inr status => negb (admin_status status)
  | inl TelegramBadRequest => true
  | inl _ => false
  end.

(** The membership query answers with an administrator's status. *)
Definition admin_granted (env : Env) (c u : Z) : bool :=
  match get_chat_member env c u with
  | inr status => admin_status status
  | inl _ => false
  end.

Definition world_of {A} (o : Outcome A) : World :=
  match o with Done _ w => w | Raised _ w => w end.

Definition before (a b : WarnRow) : Prop := listed_before a b = true.

Definition occurrences (k : string) (ks : list string) : Z :=
  Z.of_nat (List.length (filter (fun x => String.eqb x k) ks)).

(** ** Schema invariants

    What the table declarations guarantee of any stored state: [id] is a
    primary key bounded by the AUTOINCREMENT counter, [warn_type] passes the
    CHECK constraint, and (chat_id, user_id) is the key of [participants]. *)

Record wf (db : DB) : Prop := mkWf {
  wf_ids : NoDup (map w_id (warns db));
  wf_seq : Forall (fun r => w_id r <= warns_seq db) (warns db);
  wf_kinds : Forall (fun r => valid_warn_type (w_warn_type r) = true) (warns db);
  wf_participants : NoDup (map (fun p => (p_chat_id p, p_user_id p)) (participants db))
}.

(** ** Sequences of insertions *)

Record AddCall : Type := mkAdd {
  a_chat : Z;
  a_user : Z;
  a_user_name : string;
  a_warn_type : string;
  a_reason : option string;
  a_given_by_id : option Z;
  a_given_by_name : option string;
  a_now : string
}.

Definition call_add_warn (a : AddCall) (db : DB) : PyExn + DB :=
  add_warn (a_chat a) (a_user a) (a_user_name a) (a_warn_type a) (a_reason a)
           (a_given_by_id a) (a_given_by_name a) (a_now a) db.

(** Runs the calls in order.  A call that raises stores nothing; the result
    pairs the final state with the calls that did insert a record. *)
Fixpoint run_adds (calls : list AddCall) (db : DB) : DB * list AddCall :=
  match calls with
  | [] => (db, [])
  | a :: rest =>
      match call_add_warn a db with
      | inr db' => let '(d, ins) := run_adds rest db' in (d, a :: ins)
      | inl _ => run_adds rest db
      end
  end.

(** Number of the given calls made for the pair with the given kind. *)
Definition inserted_count (c u : Z) (k : string) (calls : list AddCall) : Z :=
  Z.of_nat (List.length
    (filter (fun a => (a_chat a =? c) && (a_user a =? u) && String.eqb (a_warn_type a) k)
            calls)).

(** ** Listing order on the selected columns *)

Definition view_id (v : WarnView) : Z := let '(i, _, _, _, _) := v in i.
Definition view_created_at (v : WarnView) : string := let '(_, _, _, t, _) := v in t.

(** [a] may precede [b] in a newest-first listing. *)
Definition newest_first (a b : WarnView) : Prop :=
  String.ltb (view_created_at b) (view_created_at a) = true
  \/ (view_created_at a = view_created_at b /\ view_id b <= view_id a).

(** Number of records of a pair. *)
Definition pair_total (c u : Z) (db : DB) : Z :=
  Z.of_nat (List.length (filter (of_pair c u) (warns db))).

(** ** Sample states

    A ledger of chat 100 in which user 7 holds three standard records and
    one severe record, and user 8 one standard record. *)

Definition sample_row (i u : Z) (k : string) (reason now : string) : WarnRow :=
  mkWarn i 100 u (Some "Dave"%string) k (Some reason) (Some 578664673)
         (Some "Op"%string) now.

Definition sample_ledger : DB :=
  mkDB [ sample_row 1 7 "warn" "first" "2024-05-01T10:00:00";
         sample_row 2 7 "hard" "second" "2024-05-02T10:00:00";
         sample_row 3 8 "warn" "other" "2024-05-02T11:00:00";
         sample_row 4 7 "warn" "third" "2024-05-03T10:00:00";
         sample_row 5 7 "warn" "fourth" "2024-05-03T10:00:00" ]
       5 [].

(** Two accounts that carried the handle "bob" one after the other. *)
Definition early_bob : User := mkUser 10 (Some "bob"%string) "Bob" None.
Definition later_bob : User := mkUser 20 (Some "Bob"%string) "Robert" None.



(** The directory after [early_bob] was sighted in chat 100. *)
Definition directory_with_bob : DB :=
  participant_upsert 100 (Some early_bob) "2024-05-01T09:00:00" db_init.

(** An allow-listed operator, an account outside the list, and a warned
    user, in supergroup 100. *)
Definition operator : User := mkUser 578664673 (Some "op"%string) "Op" None.
Definition outsider : User := mkUser 42 None "Eve" None.
Definition dave : User := mkUser 7 (Some "dave"%string) "Dave" None.
Definition group100 : Chat := mkChat 100 "supergroup".

Definition noon : nat -> string := fun _ => "2024-06-01T12:00:00"%string.

(** Environments by the answer of the membership query. *)
Definition env_member : Env := mkEnv (fun _ _ => inr "member"%string) noon.
Definition env_admin : Env := mkEnv (fun _ _ => inr "administrator"%string) noon.
Definition env_bad_request : Env := mkEnv (fun _ _ => inl TelegramBadRequest) noon.
Definition env_forbidden : Env := mkEnv (fun _ _ => inl TelegramForbiddenError) noon.

Definition command_from (sender : User) (reply_to : option User) (txt : string) : Message :=
  mkMessage (Some sender) group100
            (match reply_to with Some u => Some (mkReplied (Some u)) | None => None end)
            (Some txt) None None.

Definition start_of (db : DB) : World := mkWorld db 0 [].

(** An action keeps the schema invariants, however it ends. *)
Definition preserves_wf {A} (m : M A) : Prop :=
  forall env w, wf (st_db w) -> wf (st_db (world_of (m env w))).

Definition participant_key (p : ParticipantRow) : Z * Z := (p_chat_id p, p_user_id p).

(** The runs that refute claims as stated. *)
Definition directory_with_both : DB :=
  participant_upsert 100 (Some later_bob) "2024-06-01T09:00:00" directory_with_bob.

Definition denied_warn : World :=
  world_of (run (handle Warn (command_from operator None "/warn") (Some None))
                env_member (start_of db_init)).

Definition warns_nobody : World :=
  world_of (run (handle Warns (command_from operator None "/warns") (Some None))
                env_member (start_of sample_ledger)).

(** ** Markup of user links, bot.py 232-234 *)

(** [s.replace(c, by_str)] for a one-character pattern. *)
Fixpoint replace_char (c : ascii) (by_str : string) (s : string) : string :=
  match s with
  | EmptyString => EmptyString
  | String x r =>
      if Ascii.eqb x c then (by_str ++ replace_char c by_str r)%string
      else String x (replace_char c by_str r)
  end.

(** The variable [safe] of [html_user_link]. *)
Definition html_safe (name : option string) : string :=
  let shown := match or_none name with Some s => s | None => "user"%string end in
  replace_char ">"%char "&gt;" (replace_char "<"%char "&lt;" shown).

Definition double_quote : ascii := ascii_of_nat 34.

(** [str(z)] for an integer. *)
Definition py_str_int (z : Z) : string := NilZero.string_of_int (Z.to_int z).

Definition html_user_link (user_id : Z) (name : option string) : string :=
  ("<a href=" ++ String double_quote "tg://user?id=" ++ py_str_int user_id
   ++ String double_quote ">" ++ html_safe name ++ "</a>")%string.

Fixpoint contains_char (c : ascii) (s : string) : bool :=
  match s with
  | EmptyString => false
  | String x r => Ascii.eqb x c || contains_char c r
  end.

(** ** Shapes of text *)

Section TextShapes.
Context `{PyText}.

(** Some "@" of [s] is directly followed by a word character. *)
Fixpoint has_mention (s : string) : bool :=
  match s with
  | EmptyString => false
  | String c r => (Ascii.eqb c at_sign && starts_with_word r) || has_mention r
  end.

Definition starts_with_space (s : string) : bool :=
  match s with String c _ => py_isspace c | EmptyString => false end.

Fixpoint ends_with_space (s : string) : bool :=
  match s with
  | EmptyString => false
  | String c r => if truthy r then ends_with_space r else py_isspace c
  end.

End TextShapes.

(** ** Columns of a summary row *)

Definition summary_user (r : SummaryRow) : Z := let '(u, _, _, _) := r in u.
Definition summary_warn (r : SummaryRow) : Z := let '(_, _, w, _) := r in w.
Definition summary_hard (r : SummaryRow) : Z := let '(_, _, _, h) := r in h.
Definition summary_total (r : SummaryRow) : Z := summary_warn r + summary_hard r.

(** [a] may precede [b] under ORDER BY (warn_cnt + hard_cnt) DESC, hard_cnt DESC. *)
Definition ranks_before (a b : SummaryRow) : Prop :=
  summary_total b < summary_total a
  \/ (summary_total b = summary_total a /\ summary_hard b <= summary_hard a).

(** ** Relations between the worlds before and after an action *)

(** The ledger and its id counter are the same. *)
Definition ledger_same (w w' : World) : Prop :=
  warns (st_db w') = warns (st_db w) /\ warns_seq (st_db w') = warns_seq (st_db w).

(** The id counter did not go back, and every record that was not there
    before carries an id above the old counter. *)
Definition ids_fresh (w w' : World) : Prop :=
  warns_seq (st_db w) <= warns_seq (st_db w')
  /\ forall r, In r (warns (st_db w')) ->
               In r (warns (st_db w)) \/ warns_seq (st_db w) < w_id r.

(** However the action ends, the world it leaves is related to the one it
    started in. *)
Definition keeps {A} (R : World -> World -> Prop) (m : M A) : Prop :=
  forall env w, R w (world_of (m env w)).

(** The action sends nothing. *)
Definition silent {A} (m : M A) : Prop :=
  forall env w, st_sent (world_of (m env w)) = st_sent w.

(** The action sends exactly one reply when it returns and none when it
    raises. *)
Definition replies_once {A} (m : M A) : Prop :=
  forall env w,
    match m env w with
    | Done _ w' => exists r, st_sent w' = st_sent w ++ [r]
    | Raised _ w' => st_sent w' = st_sent w
    end.

(** ** Properties *)

Example clean_reason_two_mentions :
  clean_reason (Some "spam @alice @bob"%string) = "spam"%string.
Proof. reflexivity. Qed.

Example amnesty_parts_example :
  amnesty_parts "2 hard @dave"%string = ["2"; "hard"]%string
  /\ parse_amnesty (Some (Some " 3 WARN @x "%string)) = (Some 3, "warn"%string)
  /\ parse_amnesty (Some (Some "x"%string)) = (None, "all"%string)
  /\ parse_amnesty (Some (Some "1_0 every @x"%string)) = (Some 10, "all"%string).
Proof. repeat split; reflexivity. Qed.

Example py_slice_examples :
  py_slice "warn @bob now" 5 9 = "@bob"%string
  /\ py_slice "abc" 2 10 = "c"%string
  /\ py_slice "abc" (-2) 3 = "bc"%string
  /\ py_slice "abc" 5 9 = EmptyString.
Proof. repeat split; reflexivity. Qed.

(** *** Text order *)

Lemma ascii_compare_trans (a b c : ascii) :
  Ascii.compare a b = Lt -> Ascii.compare b c = Lt -> Ascii.compare a c = Lt.
Proof.
  unfold Ascii.compare. rewrite !N.compare_lt_iff. apply N.lt_trans.
Qed.

Lemma ascii_compare_refl (a : ascii) : Ascii.compare a a = Eq.
Proof. unfold Ascii.compare. apply N.compare_refl. Qed.

Lemma string_compare_refl (s : string) : String.compare s s = Eq.
Proof.
  induction s as [|a s IH]; simpl; [reflexivity|].
  now rewrite ascii_compare_refl.
Qed.

Lemma string_compare_lt_trans (a b c : string) :
  String.compare a b = Lt -> String.compare b c = Lt -> String.compare a c = Lt.
Proof.
  revert b c. induction a as [|x a IH]; intros [|y b] [|z c]; simpl; try congruence.
  destruct (Ascii.compare x y) eqn:Exy; try discriminate;
    destruct (Ascii.compare y z) eqn:Eyz; try discriminate; intros Hab Hbc.
  - apply Ascii.compare_eq_iff in Exy, Eyz. subst.
    rewrite ascii_compare_refl. eauto.
  - apply Ascii.compare_eq_iff in Exy. subst. now rewrite Eyz.
  - apply Ascii.compare_eq_iff in Eyz. subst. now rewrite Exy.
  - now rewrite (ascii_compare_trans _ _ _ Exy Eyz).
Qed.

Lemma string_compare_gt_lt (a b : string) :
  String.compare a b = Gt <-> String.compare b a = Lt.
Proof.
  rewrite (String.compare_antisym b a).
  destruct (String.compare a b); simpl; split; congruence.
Qed.

(** *** The listing order is a total preorder *)

Lemma listed_before_total (a b : WarnRow) :
  listed_before a b = true \/ listed_before b a = true.
Proof.
  unfold listed_before.
  rewrite (String.compare_antisym (w_created_at b) (w_created_at a)).
  destruct (String.compare (w_created_at a) (w_created_at b)); simpl; auto.
  destruct (Z.leb_spec (w_id b) (w_id a)); auto.
  right. apply Z.leb_le. lia.
Qed.

Lemma listed_before_trans (a b c : WarnRow) :
  listed_before a b = true -> listed_before b c = true -> listed_before a c = true.
Proof.
  unfold listed_before.
  destruct (String.compare (w_created_at b) (w_created_at a)) eqn:Eba; try discriminate;
    destruct (String.compare (w_created_at c) (w_created_at b)) eqn:Ecb; try discriminate;
    intros Hab Hbc.
  - apply String.compare_eq_iff in Eba, Ecb. rewrite Ecb, Eba, string_compare_refl.
    apply Z.leb_le. apply Z.leb_le in Hab, Hbc. lia.
  - apply String.compare_eq_iff in Eba. now rewrite <- Eba, Ecb.
  - apply String.compare_eq_iff in Ecb. now rewrite Ecb, Eba.
  - now rewrite (string_compare_lt_trans _ _ _ Ecb Eba).
Qed.

(** *** Insertion sort *)

Lemma insert_by_perm (r : WarnRow) (l : list WarnRow) :
  Permutation (insert_by r l) (r :: l).
Proof.
  induction l as [|x t IH]; simpl; [reflexivity|].
  destruct (listed_before r x); [reflexivity|].
  rewrite IH. apply perm_swap.
Qed.

Lemma order_by_recency_perm (l : list WarnRow) : Permutation (order_by_recency l) l.
Proof.
  induction l as [|x t IH]; simpl; [reflexivity|].
  rewrite insert_by_perm. now constructor.
Qed.

Lemma insert_by_sorted (r : WarnRow) (l : list WarnRow) :
  StronglySorted before l -> StronglySorted before (insert_by r l).
Proof.
  induction 1 as [|x t Hs IH Hx]; simpl.
  - repeat constructor.
  - destruct (listed_before r x) eqn:E.
    + constructor; [now constructor|].
      constructor; [exact E|].
      eapply Forall_impl; [|exact Hx].
      intros y Hy. eapply listed_before_trans; eauto.
    + constructor; [exact IH|].
      assert (Hxr : before x r)
        by (destruct (listed_before_total r x) as [C|C]; [congruence|exact C]).
      eapply Permutation_Forall; [symmetry; apply insert_by_perm|].
      now constructor.
Qed.

Lemma order_by_recency_sorted (l : list WarnRow) :
  StronglySorted before (order_by_recency l).
Proof.
  induction l; simpl; [constructor|now apply insert_by_sorted].
Qed.

Lemma filter_all {A} (p : A -> bool) (l : list A) :
  (forall x, In x l -> p x = true) -> filter p l = l.
Proof.
  induction l as [|x t IH]; simpl; intros Hall; [reflexivity|].
  rewrite (Hall x) by auto. f_equal. auto.
Qed.

Lemma filter_none {A} (p : A -> bool) (l : list A) :
  (forall x, In x l -> p x = false) -> filter p l = [].
Proof.
  induction l as [|x t IH]; simpl; intros Hall; [reflexivity|].
  rewrite (Hall x) by auto. auto.
Qed.

Lemma StronglySorted_map {A B} (R : A -> A -> Prop) (S : B -> B -> Prop) (f : A -> B) l :
  (forall a b, R a b -> S (f a) (f b)) ->
  StronglySorted R l -> StronglySorted S (map f l).
Proof.
  intros HRS. induction 1 as [|x t Hs IH Hx]; simpl; constructor; auto.
  rewrite Forall_map. eapply Forall_impl; [|exact Hx]. auto.
Qed.

Lemma before_newest_first (a b : WarnRow) : before a b -> newest_first (view a) (view b).
Proof.
  unfold before, listed_before, newest_first, String.ltb. simpl.
  destruct (String.compare (w_created_at b) (w_created_at a)) eqn:E; try discriminate.
  - intros Hid. right. apply String.compare_eq_iff in E. split; [auto|now apply Z.leb_le].
  - auto.
Qed.

(** *** Reading the ledger *)

(** C5. [get_user_warns] returns the records of the pair, each once, listed
    newest first by [created_at] with [id] descending among equal
    timestamps; reading twice in a row gives the same sequence twice and
    leaves the state as it was. *)
Theorem get_user_warns_newest_first (c u : Z) (db : DB) (env : Env) (w : World) :
  Permutation (get_user_warns c u db) (map view (filter (of_pair c u) (warns db)))
  /\ StronglySorted newest_first (get_user_warns c u db)
  /\ run (r1 <- query (get_user_warns c u) ;;
          r2 <- query (get_user_warns c u) ;;
          ret (r1, r2)) env w
     = Done (get_user_warns c u (st_db w), get_user_warns c u (st_db w)) w.
Proof.
  unfold get_user_warns. repeat split.
  - apply Permutation_map, order_by_recency_perm.
  - eapply StronglySorted_map; [apply before_newest_first|apply order_by_recency_sorted].
Qed.

(** *** Counting *)

Lemma dict_get_cons (k0 k : string) (n : Z) (t : list (string * Z)) :
  dict_get ((k0, n) :: t) k 0 = if String.eqb k0 k then n else dict_get t k 0.
Proof. unfold dict_get. simpl. now destruct (String.eqb k0 k). Qed.

Lemma dict_get_bump (k' k : string) (acc : list (string * Z)) :
  dict_get (bump k' acc) k 0 = dict_get acc k 0 + (if String.eqb k' k then 1 else 0).
Proof.
  induction acc as [|[k0 n] t IH]; simpl.
  - rewrite dict_get_cons. destruct (String.eqb k' k); reflexivity.
  - destruct (String.eqb_spec k' k0) as [->|Hne]; rewrite !dict_get_cons.
    + destruct (String.eqb k0 k); lia.
    + destruct (String.eqb_spec k0 k) as [->|Hne']; [|exact IH].
      apply String.eqb_neq in Hne. rewrite Hne. lia.
Qed.

Lemma dict_get_fold_bump (k : string) (ks : list string) (acc : list (string * Z)) :
  dict_get (fold_left (fun a x => bump x a) ks acc) k 0
  = dict_get acc k 0 + occurrences k ks.
Proof.
  unfold occurrences. revert acc.
  induction ks as [|x t IH]; intros acc; cbn [fold_left filter].
  - cbn [List.length]. lia.
  - rewrite IH, dict_get_bump. destruct (String.eqb x k); cbn [List.length]; lia.
Qed.

Lemma occurrences_map (k : string) (rows : list WarnRow) :
  occurrences k (map w_warn_type rows) = count_kind k rows.
Proof.
  unfold occurrences, count_kind.
  induction rows as [|r t IH]; cbn [map filter]; [reflexivity|].
  destruct (String.eqb (w_warn_type r) k); cbn [List.length]; lia.
Qed.

(** The aggregation computes, per kind, the number of rows of the pair. *)
Lemma get_user_counts_eq (c u : Z) (db : DB) :
  get_user_counts c u db
  = (count_kind "warn" (filter (of_pair c u) (warns db)),
     count_kind "hard" (filter (of_pair c u) (warns db))).
Proof.
  unfold get_user_counts, group_count.
  now rewrite !dict_get_fold_bump, !occurrences_map.
Qed.

Lemma count_kind_app (k : string) (l1 l2 : list WarnRow) :
  count_kind k (l1 ++ l2) = count_kind k l1 + count_kind k l2.
Proof. unfold count_kind. rewrite filter_app, length_app. lia. Qed.

Lemma add_warn_counts (a : AddCall) (db db' : DB) (c u : Z) (k : string) :
  call_add_warn a db = inr db' ->
  count_kind k (filter (of_pair c u) (warns db'))
  = count_kind k (filter (of_pair c u) (warns db)) + inserted_count c u k [a].
Proof.
  unfold call_add_warn, add_warn, inserted_count.
  destruct (max_rowid <=? warns_seq db); [discriminate|].
  destruct (negb (valid_warn_type (a_warn_type a))); [discriminate|].
  intros E. injection E as <-. simpl warns.
  rewrite filter_app, count_kind_app. f_equal.
  unfold count_kind, of_pair. simpl.
  destruct ((a_chat a =? c) && (a_user a =? u)); simpl; [|reflexivity].
  destruct (String.eqb (a_warn_type a) k); reflexivity.
Qed.

Lemma inserted_count_cons (c u : Z) (k : string) (a : AddCall) (l : list AddCall) :
  inserted_count c u k (a :: l) = inserted_count c u k [a] + inserted_count c u k l.
Proof.
  unfold inserted_count. cbn [filter].
  destruct ((a_chat a =? c) && (a_user a =? u) && String.eqb (a_warn_type a) k);
    cbn [List.length]; lia.
Qed.

Lemma run_adds_counts (calls : list AddCall) (db : DB) (c u : Z) (k : string) :
  count_kind k (filter (of_pair c u) (warns (fst (run_adds calls db))))
  = count_kind k (filter (of_pair c u) (warns db))
    + inserted_count c u k (snd (run_adds calls db)).
Proof.
  revert db. induction calls as [|a rest IH]; intros db; simpl.
  - unfold inserted_count. simpl. lia.
  - destruct (call_add_warn a db) as [e|db'] eqn:E.
    + apply IH.
    + specialize (IH db'). destruct (run_adds rest db') as [d ins]. simpl in *.
      rewrite IH, (add_warn_counts _ _ _ _ _ _ E), (inserted_count_cons _ _ _ a ins). lia.
Qed.

(** Which calls insert: those of a valid kind, as long as rowids remain. *)
Lemma run_adds_inserted (calls : list AddCall) (db : DB) :
  warns_seq db + Z.of_nat (List.length calls) <= max_rowid ->
  snd (run_adds calls db) = filter (fun a => valid_warn_type (a_warn_type a)) calls.
Proof.
  revert db. induction calls as [|a rest IH]; intros db Hseq; [reflexivity|].
  cbn [List.length] in Hseq. simpl.
  unfold call_add_warn, add_warn.
  destruct (Z.leb_spec max_rowid (warns_seq db)); [lia|].
  destruct (valid_warn_type (a_warn_type a)) eqn:Ek; simpl.
  - match goal with |- context [run_adds rest ?d] => specialize (IH d) end.
    simpl warns_seq in IH.
    destruct (run_adds rest _) as [d ins]. simpl in *. f_equal. apply IH. lia.
  - apply IH. lia.
Qed.

Lemma inserted_count_other_pairs (c u : Z) (k : string) (calls : list AddCall) :
  (forall a, In a calls -> (a_chat a, a_user a) <> (c, u)) ->
  inserted_count c u k calls = 0.
Proof.
  intros Hother. unfold inserted_count. rewrite filter_none; [reflexivity|].
  intros a Ha. specialize (Hother a Ha).
  destruct (Z.eqb_spec (a_chat a) c) as [Ec|Ec]; [|reflexivity].
  destruct (Z.eqb_spec (a_user a) u) as [Eu|Eu]; [|reflexivity].
  exfalso. apply Hother. congruence.
Qed.

(** C3. After any sequence of [add_warn] calls, [get_user_counts] of a pair
    is the pair of the numbers of records inserted for it, by kind; calls
    made for other pairs do not enter the numbers, and a kind without
    records counts 0. *)
Theorem get_user_counts_after_adds (calls : list AddCall) (c u : Z) (db : DB) :
  let after := fst (run_adds calls db) in
  let inserted := snd (run_adds calls db) in
  get_user_counts c u after
  = (fst (get_user_counts c u db) + inserted_count c u "warn" inserted,
     snd (get_user_counts c u db) + inserted_count c u "hard" inserted)
  /\ get_user_counts c u (fst (run_adds calls db_init))
     = (inserted_count c u "warn" (snd (run_adds calls db_init)),
        inserted_count c u "hard" (snd (run_adds calls db_init)))
  /\ ((forall a, In a inserted -> (a_chat a, a_user a) <> (c, u)) ->
      get_user_counts c u after = get_user_counts c u db)
  /\ get_user_counts c u db_init = (0, 0).
Proof.
  cbv zeta. rewrite !get_user_counts_eq. simpl fst. simpl snd.
  rewrite !run_adds_counts. repeat split.
  intros Hother. rewrite !inserted_count_other_pairs by exact Hother.
  now rewrite !Z.add_0_r.
Qed.

(** *** Full amnesty *)

Lemma filter_other_pair (c u c' u' : Z) (l : list WarnRow) :
  (c', u') <> (c, u) ->
  filter (of_pair c' u') (filter (fun r => negb (of_pair c u r)) l)
  = filter (of_pair c' u') l.
Proof.
  intros Hne. induction l as [|r t IH]; simpl; [reflexivity|].
  destruct (of_pair c u r) eqn:E1; simpl.
  - destruct (of_pair c' u' r) eqn:E2; [|exact IH].
    unfold of_pair in E1, E2.
    apply andb_prop in E1 as [A1 A2]. apply andb_prop in E2 as [B1 B2].
    apply Z.eqb_eq in A1, A2, B1, B2. exfalso. apply Hne. congruence.
  - now rewrite IH.
Qed.

Lemma filter_same_pair (c u : Z) (l : list WarnRow) :
  filter (of_pair c u) (filter (fun r => negb (of_pair c u r)) l) = [].
Proof.
  induction l as [|r t IH]; simpl; [reflexivity|].
  destruct (of_pair c u r) eqn:E; simpl; [exact IH|]. now rewrite E.
Qed.

(** C9. [amnesty_full] removes every record of the pair and nothing else:
    the pair's listing becomes empty and its counts (0, 0); the rows,
    listing and counts of every other pair, and the directory, are as
    before. *)
Theorem amnesty_full_spec (c u : Z) (db : DB) :
  get_user_warns c u (amnesty_full c u db) = []
  /\ get_user_counts c u (amnesty_full c u db) = (0, 0)
  /\ (forall r, In r (warns (amnesty_full c u db))
                <-> In r (warns db) /\ of_pair c u r = false)
  /\ (forall c' u', (c', u') <> (c, u) ->
        filter (of_pair c' u') (warns (amnesty_full c u db))
          = filter (of_pair c' u') (warns db)
        /\ get_user_warns c' u' (amnesty_full c u db) = get_user_warns c' u' db
        /\ get_user_counts c' u' (amnesty_full c u db) = get_user_counts c' u' db)
  /\ participants (amnesty_full c u db) = participants db.
Proof.
  split; [|split; [|split; [|split]]].
  - unfold get_user_warns, amnesty_full. simpl. now rewrite filter_same_pair.
  - rewrite get_user_counts_eq. unfold amnesty_full. simpl. now rewrite filter_same_pair.
  - intros r. unfold amnesty_full. simpl. rewrite filter_In, negb_true_iff. tauto.
  - intros c' u' Hne.
    assert (E : filter (of_pair c' u') (warns (amnesty_full c u db))
                = filter (of_pair c' u') (warns db))
      by (unfold amnesty_full; simpl; now apply filter_other_pair).
    split; [exact E|]. unfold get_user_warns. rewrite !get_user_counts_eq, E. auto.
  - reflexivity.
Qed.

(** *** Sorting and filtering commute *)

Lemma insert_by_front (r : WarnRow) (l : list WarnRow) :
  Forall (before r) l -> insert_by r l = r :: l.
Proof.
  destruct l as [|x t]; [reflexivity|].
  intros Hall. apply Forall_inv in Hall. simpl. unfold before in Hall. now rewrite Hall.
Qed.

Lemma filter_insert_by (q : WarnRow -> bool) (r : WarnRow) (l : list WarnRow) :
  StronglySorted before l ->
  filter q (insert_by r l) = if q r then insert_by r (filter q l) else filter q l.
Proof.
  induction 1 as [|x t Hs IH Hx]; simpl.
  - now destruct (q r).
  - destruct (listed_before r x) eqn:E.
    + simpl. destruct (q r); [|reflexivity].
      symmetry. apply insert_by_front.
      assert (Hall : Forall (before r) (x :: t)).
      { constructor; [exact E|]. eapply Forall_impl; [|exact Hx].
        intros y Hy. eapply listed_before_trans; eauto. }
      apply Forall_forall. intros y Hy.
      change (In y (filter q (x :: t))) in Hy. apply filter_In in Hy as [Hy _].
      eapply Forall_forall in Hall; eauto.
    + simpl. rewrite IH. destruct (q x), (q r); simpl; try reflexivity.
      now rewrite E.
Qed.

Lemma order_by_recency_filter (q : WarnRow -> bool) (l : list WarnRow) :
  order_by_recency (filter q l) = filter q (order_by_recency l).
Proof.
  induction l as [|x t IH]; simpl; [reflexivity|].
  rewrite filter_insert_by by apply order_by_recency_sorted.
  destruct (q x); simpl; now rewrite IH.
Qed.

Lemma filter_comm {A} (p q : A -> bool) (l : list A) :
  filter p (filter q l) = filter q (filter p l).
Proof.
  induction l as [|x t IH]; simpl; [reflexivity|].
  destruct (p x) eqn:Ep, (q x) eqn:Eq; simpl; rewrite ?Ep, ?Eq, IH; reflexivity.
Qed.


(** *** Deleting by primary key *)

Lemma key_injective (l : list WarnRow) (a b : WarnRow) :
  NoDup (map w_id l) -> In a l -> In b l -> w_id a = w_id b -> a = b.
Proof.
  induction l as [|x t IH]; simpl; [contradiction|].
  intros Hnd Ha Hb E. inversion Hnd as [|? ? Hx Ht]; subst.
  destruct Ha as [<-|Ha], Hb as [<-|Hb]; auto.
  - exfalso. apply Hx. rewrite E. now apply in_map.
  - exfalso. apply Hx. rewrite <- E. now apply in_map.
Qed.

Lemma id_in_spec (ids : list Z) (r : WarnRow) : id_in ids r = true <-> In (w_id r) ids.
Proof.
  unfold id_in. rewrite existsb_exists. split.
  - intros [x [Hx E]]. apply Z.eqb_eq in E. now subst.
  - intros Hin. exists (w_id r). split; [exact Hin|apply Z.eqb_refl].
Qed.

Lemma id_in_rows (l V : list WarnRow) (r : WarnRow) :
  NoDup (map w_id l) -> incl V l -> In r l ->
  (id_in (map w_id V) r = true <-> In r V).
Proof.
  intros Hnd Hincl Hr. rewrite id_in_spec, in_map_iff. split.
  - intros [v [E Hv]]. now rewrite <- (key_injective l v r Hnd (Hincl v Hv) Hr E).
  - intros Hv. now exists r.
Qed.

Lemma kept_spec (l V : list WarnRow) (r : WarnRow) :
  NoDup (map w_id l) -> incl V l ->
  (In r (filter (fun x => negb (id_in (map w_id V) x)) l) <-> In r l /\ ~ In r V).
Proof.
  intros Hnd Hincl. rewrite filter_In, negb_true_iff. split.
  - intros [Hr Hid]. split; [exact Hr|]. intros Hv.
    apply (id_in_rows l V r Hnd Hincl Hr) in Hv. congruence.
  - intros [Hr Hv]. split; [exact Hr|].
    destruct (id_in (map w_id V) r) eqn:E; [|reflexivity].
    exfalso. apply Hv. now apply (id_in_rows l V r Hnd Hincl Hr).
Qed.

Lemma delete_perm (l V : list WarnRow) :
  NoDup (map w_id l) -> NoDup V -> incl V l ->
  Permutation l (V ++ filter (fun x => negb (id_in (map w_id V) x)) l).
Proof.
  intros Hnd HV Hincl.
  assert (Hl : NoDup l) by (eapply NoDup_map_inv; eauto).
  apply NoDup_Permutation; [exact Hl| |].
  - apply NoDup_app; [exact HV|now apply NoDup_filter|].
    intros x Hx Hk. apply (kept_spec l V x Hnd Hincl) in Hk. tauto.
  - intros x. rewrite in_app_iff, (kept_spec l V x Hnd Hincl). split.
    + intros Hx. destruct (id_in (map w_id V) x) eqn:E.
      * left. now apply (id_in_rows l V x Hnd Hincl Hx).
      * right. split; [exact Hx|]. intros Hv.
        apply (id_in_rows l V x Hnd Hincl Hx) in Hv. congruence.
    + intros [Hv|[Hx _]]; auto.
Qed.

Lemma kinds_partition (rows : list WarnRow) :
  Forall (fun r => valid_warn_type (w_warn_type r) = true) rows ->
  count_kind "warn" rows + count_kind "hard" rows = Z.of_nat (List.length rows).
Proof.
  unfold count_kind. induction 1 as [|r t Hr Ht IH]; cbn [filter List.length]; [reflexivity|].
  unfold valid_warn_type in Hr.
  destruct (String.eqb_spec (w_warn_type r) "warn") as [E|E].
  - rewrite E. cbn [String.eqb Ascii.eqb Bool.eqb List.length]. lia.
  - destruct (String.eqb_spec (w_warn_type r) "hard") as [E'|E']; [|discriminate].
    cbn [List.length]. lia.
Qed.

Lemma counts_total (c u : Z) (db : DB) :
  Forall (fun r => valid_warn_type (w_warn_type r) = true) (warns db) ->
  fst (get_user_counts c u db) + snd (get_user_counts c u db) = pair_total c u db.
Proof.
  intros Hk. rewrite get_user_counts_eq. simpl. apply kinds_partition.
  apply Forall_forall. intros r Hr. apply filter_In in Hr as [Hr _].
  eapply Forall_forall in Hk; eauto.
Qed.

Lemma NoDup_app_disjoint {A} (l1 l2 : list A) (x : A) :
  NoDup (l1 ++ l2) -> In x l1 -> In x l2 -> False.
Proof.
  induction l1 as [|y t IH]; simpl; intros Hnd H1 H2; [contradiction|].
  inversion Hnd as [|? ? Hy Ht]; subst. destruct H1 as [->|H1]; [|auto].
  apply Hy. apply in_or_app. now right.
Qed.


(** *** Partial amnesty *)

Section AmnestyEffect.
Variables (c u count : Z) (kind : string) (db : DB).
Hypothesis ids_unique : NoDup (map w_id (warns db)).
Hypothesis count_nonneg : 0 <= count.

Let q := qualifying c u kind db.
Let sorted := order_by_recency q.
Let k := Z.to_nat (Z.min count (Z.of_nat (List.length q))).
Let victims := amnesty_victims c u count kind db.
Let after := delete_ids (map w_id victims) db.

Lemma sorted_length : List.length sorted = List.length q.
Proof. apply Permutation_length, order_by_recency_perm. Qed.

Lemma victims_firstn : victims = firstn k sorted.
Proof.
  unfold victims, amnesty_victims, sql_limit. fold q. fold sorted.
  destruct (Z.ltb_spec count 0); [lia|]. unfold k.
  destruct (Z.le_gt_cases count (Z.of_nat (List.length q))) as [Hle|Hgt].
  - now rewrite Z.min_l.
  - rewrite Z.min_r, Nat2Z.id, <- sorted_length by lia.
    rewrite firstn_all. apply firstn_all2. rewrite sorted_length. lia.
Qed.

Lemma victims_length :
  Z.of_nat (List.length victims) = Z.min count (Z.of_nat (List.length q)).
Proof.
  rewrite victims_firstn, length_firstn, sorted_length. unfold k. lia.
Qed.

Lemma sorted_split : sorted = victims ++ skipn k sorted.
Proof. rewrite victims_firstn. symmetry. apply firstn_skipn. Qed.

Lemma sorted_nodup : NoDup sorted.
Proof.
  eapply Permutation_NoDup; [symmetry; apply order_by_recency_perm|].
  apply NoDup_filter. eapply NoDup_map_inv; eauto.
Qed.

Lemma victims_qualify (v : WarnRow) : In v victims -> In v q.
Proof.
  intros Hv. eapply Permutation_in; [apply order_by_recency_perm|].
  fold sorted. rewrite sorted_split. apply in_or_app. now left.
Qed.

Lemma victims_incl : incl victims (warns db).
Proof.
  intros v Hv. apply victims_qualify in Hv. unfold q, qualifying in Hv.
  now apply filter_In in Hv.
Qed.

Lemma victims_nodup : NoDup victims.
Proof.
  pose proof sorted_nodup as Hs. rewrite sorted_split in Hs.
  eapply NoDup_app_remove_r; eauto.
Qed.

Lemma deleted_perm : Permutation (warns db) (victims ++ warns after).
Proof.
  unfold after, delete_ids. simpl.
  apply delete_perm; auto using victims_nodup, victims_incl.
Qed.

Lemma survivors_listing :
  order_by_recency (qualifying c u kind after) = skipn k sorted.
Proof.
  unfold qualifying, after, delete_ids. simpl.
  rewrite filter_comm, order_by_recency_filter. fold (qualifying c u kind db).
  fold q. fold sorted.
  pose proof sorted_nodup as Hs.
  rewrite sorted_split at 1. rewrite sorted_split in Hs.
  rewrite filter_app, filter_none, filter_all; [reflexivity| |].
  - intros x Hx. apply negb_true_iff.
    destruct (id_in (map w_id victims) x) eqn:E; [|reflexivity]. exfalso.
    assert (Hxl : In x (warns db)).
    { assert (Hxq : In x q).
      { eapply Permutation_in; [apply order_by_recency_perm|].
        fold sorted. rewrite sorted_split. apply in_or_app. now right. }
      unfold q, qualifying in Hxq. now apply filter_In in Hxq. }
    apply (id_in_rows _ _ _ ids_unique victims_incl Hxl) in E.
    exact (NoDup_app_disjoint _ _ x Hs E Hx).
  - intros x Hx. apply negb_false_iff, id_in_spec. now apply in_map.
Qed.



End AmnestyEffect.


Lemma qualifying_kind (c u : Z) (kind : string) (db : DB) (r : WarnRow) :
  valid_warn_type kind = true ->
  (In r (qualifying c u kind db)
   <-> In r (warns db) /\ of_pair c u r = true /\ w_warn_type r = kind).
Proof.
  intros Hk. unfold qualifying, in_scope. rewrite Hk, filter_In, andb_true_iff.
  now rewrite String.eqb_eq.
Qed.

Lemma fits_int64_count (count : Z) : 0 <= count <= max_rowid -> fits_int64 count = true.
Proof.
  unfold fits_int64, min_int64, max_rowid. intros Hc.
  apply andb_true_iff. split; apply Z.leb_le; lia.
Qed.

Ltac solve_wf :=
  constructor; simpl;
  repeat match goal with
         | |- NoDup [] => constructor
         | |- NoDup (_ :: _) => constructor
         | |- Forall _ [] => constructor
         | |- Forall _ (_ :: _) => constructor
         | |- ~ In _ _ => simpl; intuition congruence
         | |- _ <= _ => simpl; lia
         | |- _ = true => reflexivity
         end.

Lemma sample_ledger_wf : wf sample_ledger.
Proof. solve_wf. Qed.



(** *** Participant directory *)



Lemma upsert_row_first_match (A : Z) (x : string) (row : ParticipantRow)
    (rows : list ParticipantRow) :
  handle_matches A x row = true ->
  exists p, find (handle_matches A x) (upsert_row row rows) = Some p
            /\ (p = row \/ (In p rows /\ handle_matches A x p = true
                            /\ same_participant (p_chat_id row) (p_user_id row) p = false)).
Proof.
  intros Hrow. induction rows as [|p t IH]; simpl.
  - rewrite Hrow. eauto.
  - destruct (same_participant (p_chat_id row) (p_user_id row) p) eqn:E; simpl.
    + rewrite Hrow. eauto.
    + destruct (handle_matches A x p) eqn:Hp.
      * exists p. split; [reflexivity|]. right. auto.
      * destruct IH as [p' [Hf [Hp'|[Hin [Hm Hs]]]]]; exists p'; split; auto.
Qed.




Section DirectoryFacts.
Context `{PyText}.

Lemma participant_row_matches (A : Z) (user : User) (h now : string) :
  u_username user = Some h -> truthy h = true -> truthy (py_lower h) = true ->
  handle_matches A (py_lower h) (participant_row A user now) = true.
Proof.
  intros Hu Hh Hl. unfold handle_matches, participant_row. simpl.
  rewrite Z.eqb_refl, Hu. simpl. rewrite Hh. simpl. rewrite Hl.
  now rewrite String.eqb_refl.
Qed.


End DirectoryFacts.



(** Both rows carry the handle, and upserting either user again leaves the
    rows in place: the lookup gives the same answer after both upserts, so
    it cannot be the id of the user just upserted in both cases. *)
Lemma lookup_same_after_either_upsert :
  find_participant_by_username 100 "bob"
    (participant_upsert 100 (Some early_bob) "2024-07-01T09:00:00" directory_with_both)
  = find_participant_by_username 100 "bob"
      (participant_upsert 100 (Some later_bob) "2024-07-01T09:00:00" directory_with_both)
  /\ u_id early_bob <> u_id later_bob.
Proof. split; [reflexivity|]. vm_compute. discriminate. Qed.

(** *** Target resolution *)

Lemma find_first {A} (p : A -> bool) (pre post : list A) (x : A) :
  (forall e, In e pre -> p e = false) -> p x = true ->
  find p (pre ++ x :: post) = Some x.
Proof.
  induction pre as [|y t IH]; simpl; intros Hpre Hx.
  - now rewrite Hx.
  - rewrite (Hpre y) by auto. apply IH; auto.
Qed.

Lemma find_absent {A} (p : A -> bool) (l : list A) :
  (forall e, In e l -> p e = false) -> find p l = None.
Proof.
  induction l as [|y t IH]; simpl; intros Hl; [reflexivity|].
  rewrite (Hl y) by auto. apply IH. auto.
Qed.

Lemma last_selected {A B} (p : A -> bool) (f : A -> B) (pre post : list A) (x : A) :
  p x = true -> (forall e, In e post -> p e = false) ->
  rev (map f (filter p (pre ++ x :: post))) = f x :: rev (map f (filter p pre)).
Proof.
  intros Hx Hpost. rewrite filter_app. simpl. rewrite Hx.
  rewrite (filter_none p post Hpost), map_app, rev_app_distr. reflexivity.
Qed.

Section Resolution.
Context `{PyText}.

Lemma extract_mention_username_last (message : Message)
    (pre post : list MessageEntity) (ent : MessageEntity) :
  entities message = Some (pre ++ ent :: post) ->
  e_type ent = "mention"%string ->
  (forall e, In e post -> e_type e <> "mention"%string) ->
  extract_mention_username message = or_none (Some (handle_of message ent)).
Proof.
  intros Hents Htype Hpost. unfold extract_mention_username. rewrite Hents.
  destruct (pre ++ ent :: post) as [|e0 l0] eqn:E.
  - now destruct pre.
  - rewrite <- E.
    rewrite (last_selected is_mention _ pre post ent).
    + reflexivity.
    + unfold is_mention. now rewrite Htype.
    + intros e He. unfold is_mention. apply String.eqb_neq. auto.
Qed.

Lemma extract_mention_username_none (message : Message) :
  (forall ents e, entities message = Some ents -> In e ents -> e_type e <> "mention"%string) ->
  extract_mention_username message = None.
Proof.
  intros Hno. unfold extract_mention_username.
  destruct (entities message) as [[|e0 l0]|] eqn:E; try reflexivity.
  rewrite (filter_none is_mention (e0 :: l0)); [reflexivity|].
  intros e He. unfold is_mention. apply String.eqb_neq. eapply Hno; eauto.
Qed.

(** C4.  Resolution tries three sources in a fixed order and stops at the
    first that yields a user: the author of the replied-to message, whatever
    entities the command carries; else the user attached to the first
    text_mention entity; else the last mention entity, whose text is cut out
    of the raw text by offset and length, stripped of "@", lower-cased and
    looked up in the directory of the chat.  When none yields a user the
    result is no target. *)
Theorem extract_target_user_precedence (message : Message) (db : DB) :
  (forall u, reply_author message = Some u ->
             extract_target_user message db = Some (TUser u))
  /\ (reply_author message = None ->
      (forall pre ent post u,
          entities message = Some (pre ++ ent :: post) ->
          (forall e, In e pre -> is_text_mention e = false) ->
          e_type ent = "text_mention"%string -> e_user ent = Some u ->
          extract_target_user message db = Some (TUser u))
      /\ ((forall ents e, entities message = Some ents -> In e ents ->
                          is_text_mention e = false) ->
          (forall pre ent post,
              entities message = Some (pre ++ ent :: post) ->
              e_type ent = "mention"%string ->
              (forall e, In e post -> e_type e <> "mention"%string) ->
              extract_target_user message db
              = if truthy (handle_of message ent)
                then option_map TFound
                       (find_participant_by_username (chat_id (chat message))
                          (py_lower (handle_of message ent)) db)
                else None)
          /\ ((forall ents e, entities message = Some ents -> In e ents ->
                              e_type e <> "mention"%string) ->
              extract_target_user message db = None))).
Proof.
  split; [|intros Hreply; split; [|intros Hnone; split]].
  - intros u Hu. unfold extract_target_user. now rewrite Hu.
  - intros pre ent post u Hents Hpre Htype Huser.
    unfold extract_target_user, first_text_mention. rewrite Hreply, Hents.
    rewrite (find_first is_text_mention pre post ent Hpre).
    + now rewrite Huser.
    + unfold is_text_mention. now rewrite Htype, Huser.
  - intros pre ent post Hents Htype Hpost.
    unfold extract_target_user, first_text_mention. rewrite Hreply, Hents.
    rewrite (find_absent is_text_mention) by (intros e He; eapply Hnone; eauto).
    rewrite (extract_mention_username_last message pre post ent Hents Htype Hpost).
    simpl. destruct (truthy (handle_of message ent)); [|reflexivity].
    now destruct (find_participant_by_username _ _ db).
  - intros Hno.
    unfold extract_target_user, first_text_mention. rewrite Hreply.
    rewrite (extract_mention_username_none message Hno).
    destruct (entities message) as [ents|] eqn:E; [|reflexivity].
    now rewrite (find_absent is_text_mention) by (intros e He; eapply Hnone; eauto).
Qed.

End Resolution.

(** *** Running handlers *)

Lemma bind_done {A B} (m : M A) (k : A -> M B) (env : Env) (w w' : World) (a : A) :
  m env w = Done a w' -> bind m k env w = k a env w'.
Proof. intros E. unfold bind. now rewrite E. Qed.

Lemma bind_raised {A B} (m : M A) (k : A -> M B) (env : Env) (w w' : World) (e : PyExn) :
  m env w = Raised e w' -> bind m k env w = Raised e w'.
Proof. intros E. unfold bind. now rewrite E. Qed.

Lemma is_admin_denied (env : Env) (c u : Z) (w : World) :
  admin_denied env c u = true -> is_admin c u env w = Done false w.
Proof.
  unfold admin_denied, is_admin, bind, call_get_chat_member, admin_status.
  destruct (get_chat_member env c u) as [[]|status]; try discriminate; [reflexivity|].
  intros E. apply negb_true_iff in E. unfold ret. now rewrite E.
Qed.

Lemma is_admin_granted (env : Env) (c u : Z) (w : World) :
  admin_granted env c u = true -> is_admin c u env w = Done true w.
Proof.
  unfold admin_granted, is_admin, bind, call_get_chat_member, admin_status.
  destruct (get_chat_member env c u) as [e|status]; [discriminate|].
  intros E. unfold ret. now rewrite E.
Qed.

Ltac open_handler :=
  unfold run, handle, on_start, on_help, cmd_warn, cmd_hardwarn, issue, cmd_warns,
    cmd_allwarns, cmd_amnesty, cmd_full_amnesty.

Ltac step E := rewrite (bind_done _ _ _ _ _ _ E); cbv beta.

Section HandlerFacts.
Context `{PyText}.

Lemma require_sender_done (message : Message) (sender : User) (env : Env) (w : World) :
  from_user message = Some sender -> require_sender message env w = Done sender w.
Proof. intros E. unfold require_sender. now rewrite E. Qed.

Lemma track_done (message : Message) (env : Env) (w : World) :
  track_message_participants message env w = Done tt (after_tracking message env w).
Proof.
  unfold after_tracking, track_message_participants, upsert_now, bind.
  destruct (from_user message), (reply_author message); reflexivity.
Qed.

Lemma after_tracking_ledger (message : Message) (env : Env) (w : World) :
  warns (st_db (after_tracking message env w)) = warns (st_db w)
  /\ warns_seq (st_db (after_tracking message env w)) = warns_seq (st_db w)
  /\ st_sent (after_tracking message env w) = st_sent w.
Proof.
  unfold after_tracking, track_message_participants, upsert_now, bind.
  destruct (from_user message), (reply_author message); simpl; auto.
Qed.

Lemma after_tracking_directory (message : Message) (sender : User) (env : Env) (w : World) :
  from_user message = Some sender ->
  participants (st_db (after_tracking message env w))
  = participants
      (participant_upsert (chat_id (chat message)) (reply_author message)
         (utcnow env (S (st_tick w)))
         (participant_upsert (chat_id (chat message)) (Some sender)
            (utcnow env (st_tick w)) (st_db w))).
Proof.
  intros E. unfold after_tracking, track_message_participants, upsert_now, bind.
  rewrite E. destruct (reply_author message); reflexivity.
Qed.

(** A sender outside the allow-list: every handler answers the denial and
    touches nothing else. *)
Lemma not_allowed_denied (cmd : Command) (message : Message)
    (command : option (option string)) (env : Env) (w : World) (sender : User) :
  from_user message = Some sender ->
  is_allowed (Some (u_id sender)) = false ->
  run (handle cmd message command) env w
  = Done tt (mkWorld (st_db w) (st_tick w) (st_sent w ++ [R_AccessDenied])).
Proof.
  intros Hs Ha. pose proof (require_sender_done message sender env w Hs) as E.
  destruct cmd; open_handler; step E; rewrite Ha; reflexivity.
Qed.

(** An allow-listed sender whom the administrator check turns down. *)
Lemma not_admin_denied (cmd : Command) (message : Message)
    (command : option (option string)) (env : Env) (w : World) (sender : User) :
  from_user message = Some sender ->
  is_allowed (Some (u_id sender)) = true ->
  mutating cmd = true ->
  in_group message = true ->
  admin_denied env (chat_id (chat message)) (u_id sender) = true ->
  run (handle cmd message command) env w
  = Done tt (mkWorld (st_db (after_tracking message env w))
                     (st_tick (after_tracking message env w))
                     (st_sent w ++ [R_AdminsOnly cmd])).
Proof.
  intros Hs Ha Hm Hg Hd. pose proof (require_sender_done message sender env w Hs) as E.
  pose proof (after_tracking_ledger message env w) as (_ & _ & Hsent).
  destruct cmd; try discriminate; open_handler; step E; rewrite Ha; cbn [negb];
    step (track_done message env w); rewrite Hg; cbn [negb];
    step (is_admin_denied env _ _ (after_tracking message env w) Hd); cbn [negb];
    unfold answer; now rewrite Hsent.
Qed.

End HandlerFacts.

Section HandlerClaims.
Context `{PyText}.

(** C2 (as the code has it).  A sender outside the allow-list gets the
    denial and nothing is stored: no warning record, no directory row, no
    clock reading.  An allow-listed sender of a mutating command in a group
    whom the administrator check turns down gets the administrators-only
    answer, and no warning record is created or deleted; the directory rows
    of the sender and of the replied-to author have been upserted before the
    check. *)
Theorem access_denial_effect (cmd : Command) (message : Message)
    (command : option (option string)) (env : Env) (w : World) (sender : User) :
  from_user message = Some sender ->
  (is_allowed (Some (u_id sender)) = false ->
   run (handle cmd message command) env w
   = Done tt (mkWorld (st_db w) (st_tick w) (st_sent w ++ [R_AccessDenied])))
  /\ (is_allowed (Some (u_id sender)) = true ->
      mutating cmd = true ->
      in_group message = true ->
      admin_denied env (chat_id (chat message)) (u_id sender) = true ->
      exists w',
        run (handle cmd message command) env w = Done tt w'
        /\ st_sent w' = st_sent w ++ [R_AdminsOnly cmd]
        /\ warns (st_db w') = warns (st_db w)
        /\ warns_seq (st_db w') = warns_seq (st_db w)
        /\ participants (st_db w')
           = participants
               (participant_upsert (chat_id (chat message)) (reply_author message)
                  (utcnow env (S (st_tick w)))
                  (participant_upsert (chat_id (chat message)) (Some sender)
                     (utcnow env (st_tick w)) (st_db w)))).
Proof.
  intros Hs. split.
  - intros Ha. now apply not_allowed_denied with (sender := sender).
  - intros Ha Hm Hg Hd. eexists. split.
    + now apply not_admin_denied with (sender := sender).
    + simpl. pose proof (after_tracking_ledger message env w) as (Hw & Hq & _).
      repeat split; auto. now apply after_tracking_directory.
Qed.

(** C7 (as the code has it).  [is_admin] answers "not admin" when the
    membership query fails with a bad request, and the handler then sends
    the administrators-only answer.  It answers by the status when the query
    succeeds.  A failure of any other kind is not caught: it leaves
    [is_admin] and the handler as an exception. *)
Theorem is_admin_catches_bad_request (c u : Z) (env : Env) (w : World) :
  (get_chat_member env c u = inl TelegramBadRequest ->
   run (is_admin c u) env w = Done false w)
  /\ (forall status, get_chat_member env c u = inr status ->
        run (is_admin c u) env w = Done (admin_status status) w)
  /\ (forall e, get_chat_member env c u = inl e -> e <> TelegramBadRequest ->
        run (is_admin c u) env w = Raised e w)
  /\ (forall cmd message command sender,
        from_user message = Some sender ->
        is_allowed (Some (u_id sender)) = true ->
        mutating cmd = true -> in_group message = true ->
        (get_chat_member env (chat_id (chat message)) (u_id sender) = inl TelegramBadRequest ->
         run (handle cmd message command) env w
         = Done tt (mkWorld (st_db (after_tracking message env w))
                            (st_tick (after_tracking message env w))
                            (st_sent w ++ [R_AdminsOnly cmd])))
        /\ (forall e,
              get_chat_member env (chat_id (chat message)) (u_id sender) = inl e ->
              e <> TelegramBadRequest ->
              run (handle cmd message command) env w
              = Raised e (after_tracking message env w))).
Proof.
  assert (Hraise : forall c' u' w' e, get_chat_member env c' u' = inl e ->
            e <> TelegramBadRequest -> is_admin c' u' env w' = Raised e w').
  { intros c' u' w' e E Hne. unfold is_admin, bind, call_get_chat_member.
    rewrite E. destruct e; try reflexivity. now contradiction Hne. }
  split; [|split; [|split]].
  - intros E. apply is_admin_denied. unfold admin_denied. now rewrite E.
  - intros status E. unfold run, is_admin, bind, call_get_chat_member. now rewrite E.
  - intros e E Hne. now apply Hraise.
  - intros cmd message command sender Hs Ha Hm Hg. split.
    + intros E. apply not_admin_denied with (sender := sender); auto.
      unfold admin_denied. now rewrite E.
    + intros e E Hne.
      pose proof (require_sender_done message sender env w Hs) as Es.
      destruct cmd; try discriminate; open_handler; step Es; rewrite Ha; cbn [negb];
        step (track_done message env w); rewrite Hg; cbn [negb];
        now rewrite (bind_raised _ _ _ _ _ _ (Hraise _ _ _ e E Hne)).
Qed.

Lemma cmd_warns_reply (message : Message) (sender : User) (env : Env) (w : World) :
  from_user message = Some sender ->
  is_allowed (Some (u_id sender)) = true ->
  let w1 := after_tracking message env w in
  let user := match extract_target_user message (st_db w1) with
              | Some t => t
              | None => TUser sender
              end in
  cmd_warns message env w
  = Done tt (mkWorld (st_db w1) (st_tick w1)
                     (st_sent w ++ [warns_reply (chat_id (chat message)) user (st_db w1)])).
Proof.
  intros Hs Ha w1 user.
  pose proof (require_sender_done message sender env w Hs) as Es.
  pose proof (after_tracking_ledger message env w) as (_ & _ & Hsent).
  unfold cmd_warns. step Es. rewrite Ha. cbn [negb].
  step (track_done message env w).
  unfold bind, query, warns_reply. fold w1. fold user.
  destruct (get_user_warns (chat_id (chat message)) (target_id user) (st_db w1));
    unfold answer; fold w1 in Hsent; now rewrite Hsent.
Qed.

(** C6 (as the code has it).  When resolution yields no target, the mutating
    commands (warn, hardwarn, amnesty, fullamnesty) answer with the prompt
    to name a subject and neither create nor delete a warning record; the
    directory has been refreshed from the message before.  The listing
    command warns takes the sender as subject instead and reports the
    sender's records. *)
Theorem unresolved_target_effect (cmd : Command) (message : Message)
    (command : option (option string)) (env : Env) (w : World) (sender : User) :
  from_user message = Some sender ->
  is_allowed (Some (u_id sender)) = true ->
  extract_target_user message (st_db (after_tracking message env w)) = None ->
  let w1 := after_tracking message env w in
  (mutating cmd = true -> in_group message = true ->
   admin_granted env (chat_id (chat message)) (u_id sender) = true ->
   run (handle cmd message command) env w
   = Done tt (mkWorld (st_db w1) (st_tick w1) (st_sent w ++ [R_WhomPrompt cmd])))
  /\ run (handle Warns message command) env w
     = Done tt (mkWorld (st_db w1) (st_tick w1)
                  (st_sent w ++ [warns_reply (chat_id (chat message)) (TUser sender)
                                             (st_db w1)]))
  /\ warns (st_db w1) = warns (st_db w)
  /\ warns_seq (st_db w1) = warns_seq (st_db w).
Proof.
  intros Hs Ha Hnone w1.
  pose proof (require_sender_done message sender env w Hs) as Es.
  pose proof (after_tracking_ledger message env w) as (Hw & Hq & Hsent).
  split; [|split; [|split; assumption]].
  - intros Hm Hg Hadm.
    assert (Hq' : query (extract_target_user message) env w1 = Done None w1)
      by (unfold query; fold w1 in Hnone; now rewrite Hnone).
    destruct cmd; try discriminate; open_handler; step Es; rewrite Ha; cbn [negb];
      step (track_done message env w); rewrite Hg; cbn [negb];
      step (is_admin_granted env _ _ (after_tracking message env w) Hadm); cbn [negb];
      fold w1; step Hq'; unfold answer; fold w1 in Hsent; now rewrite Hsent.
  - unfold run, handle. rewrite (cmd_warns_reply message sender env w Hs Ha).
    fold w1. fold w1 in Hnone. now rewrite Hnone.
Qed.

End HandlerClaims.

Section AmnestyCommand.
Context `{PyText}.


Lemma parse_amnesty_recognised (command : option (option string))
    (a p0 p1 : string) (rest : list string) :
  command_args command = Some a ->
  amnesty_parts (py_strip a) = p0 :: p1 :: rest ->
  scope_word (py_lower p1) = true ->
  parse_amnesty command = (py_int p0, py_lower p1).
Proof.
  intros Ha Hparts Hscope. unfold parse_amnesty. rewrite Ha.
  destruct (py_strip a) as [|x s] eqn:E; [discriminate|].
  simpl truthy. cbv iota. now rewrite Hparts, Hscope.
Qed.


End AmnestyCommand.

(** *** Concrete runs *)

Lemma access_denial_effect_witness :
  run (handle Warn (command_from outsider (Some dave) "/warn spam") (Some (Some "spam"%string)))
      env_admin (start_of sample_ledger)
  = Done tt (mkWorld sample_ledger 0 [R_AccessDenied]).
Proof.
  destruct (@access_denial_effect Latin1 Warn
              (command_from outsider (Some dave) "/warn spam")
              (Some (Some "spam"%string)) env_admin (start_of sample_ledger)
              outsider eq_refl) as [Hdenied _].
  apply Hdenied. reflexivity.
Defined.

(** C2, refuted as stated: an allow-listed sender who is not an
    administrator issues /warn in a group; the answer is the denial, and the
    directory has gained the sender's row. *)
Lemma denied_warn_writes_directory :
  is_allowed (Some (u_id operator)) = true
  /\ admin_denied env_member 100 (u_id operator) = true
  /\ st_sent denied_warn = [R_AdminsOnly Warn]
  /\ warns (st_db denied_warn) = []
  /\ map p_user_id (participants (st_db denied_warn)) = [578664673]
  /\ participants (st_db denied_warn) <> participants db_init.
Proof. repeat split; try reflexivity. vm_compute. discriminate. Qed.

Lemma unresolved_target_effect_witness :
  run (handle FullAmnesty (command_from operator None "/fullamnesty") (Some None))
      env_admin (start_of sample_ledger)
  = Done tt (mkWorld
               (participant_upsert 100 (Some operator) (noon 0%nat) sample_ledger)
               1 [R_WhomPrompt FullAmnesty]).
Proof.
  destruct (@unresolved_target_effect Latin1 FullAmnesty
              (command_from operator None "/fullamnesty") (Some None)
              env_admin (start_of sample_ledger) operator eq_refl eq_refl eq_refl)
    as [Hprompt _].
  rewrite Hprompt; reflexivity.
Defined.

(** C6, refuted as stated: /warns that names nobody does not ask whom; it
    reports on the sender, and the directory has gained the sender's row. *)
Lemma warns_without_target_reports_sender :
  extract_target_user (command_from operator None "/warns")
    (st_db (after_tracking (command_from operator None "/warns") env_member
                           (start_of sample_ledger))) = None
  /\ st_sent warns_nobody = [R_NoWarns (u_id operator) "Op"]
  /\ st_sent warns_nobody <> [R_WhomPrompt Warns]
  /\ participants (st_db warns_nobody) <> participants sample_ledger.
Proof. repeat split; try reflexivity; vm_compute; discriminate. Qed.

(** C7, refuted as stated: the membership query fails because the bot is
    forbidden to read the chat; [is_admin] does not answer, and the handler
    ends with that exception. *)
Lemma forbidden_query_propagates :
  get_chat_member env_forbidden 100 (u_id operator) = inl TelegramForbiddenError
  /\ run (is_admin 100 (u_id operator)) env_forbidden (start_of sample_ledger)
     = Raised TelegramForbiddenError (start_of sample_ledger)
  /\ run (is_admin 100 (u_id operator)) env_forbidden (start_of sample_ledger)
     <> Done false (start_of sample_ledger)
  /\ run (handle Warn (command_from operator (Some dave) "/warn spam")
                 (Some (Some "spam"%string)))
         env_forbidden (start_of sample_ledger)
     = Raised TelegramForbiddenError
         (after_tracking (command_from operator (Some dave) "/warn spam")
                         env_forbidden (start_of sample_ledger)).
Proof. repeat split; try reflexivity. vm_compute. discriminate. Qed.


(** Runs of the scenarios of the specification. *)

Example reply_beats_mention :
  extract_target_user
    (mkMessage (Some operator) group100 (Some (mkReplied (Some dave)))
               (Some "/warn late @bob"%string) None
               (Some [mkEntity "bot_command" 0 5 None; mkEntity "mention" 11 4 None]))
    directory_with_bob
  = Some (TUser dave).
Proof. reflexivity. Qed.

Example mention_resolves_through_directory :
  let msg := mkMessage (Some operator) group100 None
               (Some "/warn late @Bob"%string) None
               (Some [mkEntity "bot_command" 0 5 None; mkEntity "mention" 11 4 None]) in
  extract_mention_username msg = Some "Bob"%string
  /\ option_map target_id (extract_target_user msg directory_with_bob) = Some 10
  /\ extract_target_user (mkMessage (Some operator) (mkChat 200 "group") None
                            (Some "/warn late @Bob"%string) None
                            (Some [mkEntity "mention" 11 4 None]))
                         directory_with_bob = None.
Proof. repeat split; reflexivity. Qed.

Example amnesty_two_hard_on_dave :
  let msg := command_from operator (Some dave) "/amnesty 2 hard" in
  let w' := world_of (run (handle Amnesty msg (Some (Some "2 hard"%string)))
                          env_admin (start_of sample_ledger)) in
  map w_id (warns (st_db w')) = [1; 3; 4; 5]
  /\ st_sent w' = [R_AmnestyApplied 7 "Dave" 2 "hard" 3 0].
Proof. split; reflexivity. Qed.

Example listing_of_dave :
  map view_id (get_user_warns 100 7 sample_ledger) = [5; 4; 2; 1].
Proof. reflexivity. Qed.

Example warn_then_warns :
  let warn := mkMessage (Some operator) group100 (Some (mkReplied (Some dave)))
                (Some "/warn late @dave"%string) None None in
  let w1 := world_of (run (handle Warn warn (Some (Some "late @dave"%string)))
                          env_admin (start_of db_init)) in
  let w2 := world_of (run (handle Warns warn (Some None)) env_admin w1) in
  map (fun r => (w_user_id r, w_warn_type r, w_reason r)) (warns (st_db w1))
  = [(7, "warn"%string, Some "late"%string)]
  /\ get_user_counts 100 7 (st_db w1) = (1, 0)
  /\ List.length (st_sent w2) = 2%nat.
Proof. repeat split; reflexivity. Qed.

(** *** The schema invariants hold in every reachable state *)

Lemma db_init_wf : wf db_init.
Proof. solve_wf. Qed.

Lemma add_warn_wf (c u : Z) (user_name warn_type : string) (reason : option string)
    (by_id : option Z) (by_name : option string) (now : string) (db db' : DB) :
  wf db ->
  add_warn c u user_name warn_type reason by_id by_name now db = inr db' ->
  wf db'.
Proof.
  intros [Hids Hseq Hkinds Hpart]. unfold add_warn.
  destruct (Z.leb_spec max_rowid (warns_seq db)); [discriminate|].
  destruct (valid_warn_type warn_type) eqn:Ek; [|discriminate]. cbn [negb].
  intros E. injection E as <-. constructor; simpl.
  - rewrite map_app. simpl. apply NoDup_app; [exact Hids|repeat constructor; auto|].
    intros x Hx [<-|[]]. apply in_map_iff in Hx as [r [E Hr]].
    eapply Forall_forall in Hseq; eauto. simpl in Hseq. lia.
  - apply Forall_app. split.
    + eapply Forall_impl; [|exact Hseq]. simpl. intros; lia.
    + repeat constructor. simpl. lia.
  - apply Forall_app. split; [exact Hkinds|]. repeat constructor. exact Ek.
  - exact Hpart.
Qed.

(** Deleting rows keeps the primary key unique. *)
Lemma ids_unique_after_delete (keep : WarnRow -> bool) (rows : list WarnRow) :
  NoDup (map w_id rows) -> NoDup (map w_id (filter keep rows)).
Proof.
  intros Hnd. induction rows as [|x t IH]; simpl; [constructor|].
  inversion Hnd as [|? ? Hx Ht]; subst.
  destruct (keep x); simpl; [|auto]. constructor; [|auto].
  intros Hin. apply Hx. apply in_map_iff in Hin as [y [E Hy]].
  apply filter_In in Hy as [Hy _]. rewrite <- E. now apply in_map.
Qed.

Lemma Forall_filter_keep {A} (P : A -> Prop) (p : A -> bool) (l : list A) :
  Forall P l -> Forall P (filter p l).
Proof.
  intros Hl. apply Forall_forall. intros x Hx. apply filter_In in Hx as [Hx _].
  eapply Forall_forall in Hl; eauto.
Qed.

Lemma filter_warns_wf (p : WarnRow -> bool) (db : DB) :
  wf db -> wf (mkDB (filter p (warns db)) (warns_seq db) (participants db)).
Proof.
  intros [Hids Hseq Hkinds Hpart]. constructor; simpl;
    auto using ids_unique_after_delete, Forall_filter_keep.
Qed.

Lemma amnesty_partial_wf (c u count : Z) (kind : string) (db db' : DB) :
  wf db -> amnesty_partial c u count kind db = inr db' -> wf db'.
Proof.
  intros Hwf. unfold amnesty_partial. destruct (negb (fits_int64 count)); [discriminate|].
  intros E. injection E as <-. now apply filter_warns_wf.
Qed.

Lemma amnesty_full_wf (c u : Z) (db : DB) : wf db -> wf (amnesty_full c u db).
Proof. intros Hwf. now apply filter_warns_wf. Qed.

Lemma same_participant_key (row p : ParticipantRow) :
  same_participant (p_chat_id row) (p_user_id row) p = true
  <-> participant_key p = participant_key row.
Proof.
  unfold same_participant, participant_key. rewrite andb_true_iff, !Z.eqb_eq.
  split; [intros [-> ->]; reflexivity|intros E; injection E; auto].
Qed.

Lemma upsert_row_keys (row : ParticipantRow) (rows : list ParticipantRow) :
  map participant_key (upsert_row row rows)
  = if existsb (same_participant (p_chat_id row) (p_user_id row)) rows
    then map participant_key rows
    else map participant_key rows ++ [participant_key row].
Proof.
  induction rows as [|p t IH]; simpl; [reflexivity|].
  destruct (same_participant (p_chat_id row) (p_user_id row) p) eqn:E; simpl.
  - apply same_participant_key in E. now rewrite E.
  - rewrite IH. now destruct (existsb _ t).
Qed.

Lemma upsert_row_nodup (row : ParticipantRow) (rows : list ParticipantRow) :
  NoDup (map participant_key rows) -> NoDup (map participant_key (upsert_row row rows)).
Proof.
  intros Hnd. rewrite upsert_row_keys.
  destruct (existsb (same_participant (p_chat_id row) (p_user_id row)) rows) eqn:E;
    [exact Hnd|].
  apply NoDup_app; [exact Hnd|repeat constructor; auto|].
  intros x Hx [<-|[]]. apply in_map_iff in Hx as [p [Ek Hp]].
  assert (Hex : existsb (same_participant (p_chat_id row) (p_user_id row)) rows = true).
  { apply existsb_exists. exists p. split; [exact Hp|]. now apply same_participant_key. }
  congruence.
Qed.

Lemma preserves_ret {A} (a : A) : preserves_wf (ret a).
Proof. intros env w Hwf. exact Hwf. Qed.

Lemma preserves_raise {A} (e : PyExn) : preserves_wf (@raise A e).
Proof. intros env w Hwf. exact Hwf. Qed.

Lemma preserves_answer (r : Reply) : preserves_wf (answer r).
Proof. intros env w Hwf. exact Hwf. Qed.

Lemma preserves_read_clock : preserves_wf read_clock.
Proof. intros env w Hwf. exact Hwf. Qed.

Lemma preserves_query {A} (q : DB -> A) : preserves_wf (query q).
Proof. intros env w Hwf. exact Hwf. Qed.

Lemma preserves_update (f : DB -> DB) :
  (forall db, wf db -> wf (f db)) -> preserves_wf (update f).
Proof. intros Hf env w Hwf. simpl. auto. Qed.

Lemma preserves_try_update (f : DB -> PyExn + DB) :
  (forall db db', wf db -> f db = inr db' -> wf db') -> preserves_wf (try_update f).
Proof.
  intros Hf env w Hwf. unfold try_update.
  destruct (f (st_db w)) as [e|db'] eqn:E; simpl; eauto.
Qed.

Lemma preserves_bind {A B} (m : M A) (k : A -> M B) :
  preserves_wf m -> (forall a, preserves_wf (k a)) -> preserves_wf (bind m k).
Proof.
  intros Hm Hk env w Hwf. unfold bind. specialize (Hm env w Hwf).
  destruct (m env w) as [a w'|e w']; simpl in *; [now apply Hk|exact Hm].
Qed.

Lemma preserves_is_admin (c u : Z) : preserves_wf (is_admin c u).
Proof.
  apply preserves_bind; [intros env w Hwf; exact Hwf|].
  intros [[]|status]; auto using @preserves_ret, @preserves_raise.
Qed.

Section Reachable.
Context `{PyText}.

Lemma participant_upsert_wf (c : Z) (user : option User) (now : string) (db : DB) :
  wf db -> wf (participant_upsert c user now db).
Proof.
  intros [Hids Hseq Hkinds Hpart]. destruct user as [u|]; [|now constructor].
  constructor; simpl; auto. now apply upsert_row_nodup.
Qed.

Lemma preserves_track (message : Message) :
  preserves_wf (track_message_participants message).
Proof.
  assert (Hup : forall c user, preserves_wf (upsert_now c user)).
  { intros c [u|]; [|apply preserves_ret].
    apply preserves_bind; [apply preserves_read_clock|].
    intros now. apply preserves_update. intros db. apply participant_upsert_wf. }
  apply preserves_bind; auto.
Qed.

Ltac preserve :=
  repeat first
    [ apply preserves_answer | apply preserves_ret | apply preserves_raise
    | apply preserves_read_clock | apply preserves_query | apply preserves_is_admin
    | apply preserves_track
    | apply preserves_update; intros; now apply amnesty_full_wf
    | apply preserves_try_update; intros;
      solve [eapply add_warn_wf; eauto | eapply amnesty_partial_wf; eauto]
    | apply preserves_bind; [|intros]
    | match goal with
      | |- preserves_wf (if ?b then _ else _) => destruct b
      | |- preserves_wf (match ?x with _ => _ end) => destruct x
      end ].

(** Every handler takes a state that satisfies the schema invariants to one
    that does, whether it returns or raises. *)
Lemma handle_preserves_wf (cmd : Command) (message : Message)
    (command : option (option string)) :
  preserves_wf (handle cmd message command).
Proof.
  destruct cmd; open_handler; unfold require_sender; preserve.
Qed.

End Reachable.

(** *** The count that reaches [amnesty_partial] *)

(** The handler passes on a count only when it is positive. *)
Lemma count_rejected_iff (count : option Z) :
  count_rejected count = false <-> exists n, count = Some n /\ 0 < n.
Proof.
  unfold count_rejected. destruct count as [n|].
  - rewrite orb_false_iff, Z.eqb_neq, Z.leb_gt. split.
    + intros [_ Hn]. eauto.
    + intros [m [E Hm]]. injection E as ->. lia.
  - split; [discriminate|]. intros [n [E _]]. discriminate.
Qed.

(** Outside the range of the theorems above: a negative count within the
    64-bit range lifts the bound, and every qualifying record goes; a count
    that does not fit 64 bits is refused before anything is deleted. *)
Lemma amnesty_partial_out_of_range (c u count : Z) (kind : string) (db : DB) :
  (min_int64 <= count < 0 ->
   amnesty_partial c u count kind db
   = inr (delete_ids (map w_id (order_by_recency (qualifying c u kind db))) db))
  /\ (max_rowid < count -> amnesty_partial c u count kind db = inl OverflowError).
Proof.
  unfold amnesty_partial, amnesty_victims, sql_limit, fits_int64. split; intros Hc.
  - destruct (Z.leb_spec min_int64 count); [|lia].
    destruct (Z.leb_spec count max_rowid); [|unfold max_rowid in *; lia].
    destruct (Z.ltb_spec count 0); [reflexivity|lia].
  - destruct (Z.leb_spec count max_rowid); [lia|]. now rewrite andb_false_r.
Qed.

(** ** Further properties of the code *)

(** *** Reason sanitisation, bot.py 284-288 *)

Section ReasonFacts.
Context `{PyText}.

Lemma re_sub_inside_no_word (s : string) :
  starts_with_word (re_sub_from true s) = false.
Proof.
  induction s as [|c r IH]; simpl; [reflexivity|].
  destruct (py_isword c) eqn:Ew; [exact IH|].
  destruct (Ascii.eqb c at_sign && starts_with_word r); [exact IH|].
  simpl. exact Ew.
Qed.

Lemma re_sub_keeps_no_word (s : string) :
  starts_with_word s = false -> starts_with_word (re_sub_from false s) = false.
Proof.
  destruct s as [|d r]; simpl; [reflexivity|]. intros Hd.
  destruct (Ascii.eqb d at_sign && starts_with_word r);
    [apply re_sub_inside_no_word|exact Hd].
Qed.

Lemma re_sub_no_mention (inside : bool) (s : string) :
  has_mention (re_sub_from inside s) = false.
Proof.
  revert inside. induction s as [|c r IH]; intros inside; simpl; [reflexivity|].
  destruct (inside && py_isword c); [apply IH|].
  destruct (Ascii.eqb c at_sign && starts_with_word r) eqn:E; [apply IH|].
  simpl. rewrite IH, orb_false_r.
  destruct (Ascii.eqb c at_sign); [|reflexivity]. simpl in *.
  now rewrite re_sub_keeps_no_word.
Qed.

Lemma re_sub_fixed (s : string) :
  has_mention s = false -> re_sub_from false s = s.
Proof.
  induction s as [|c r IH]; simpl; [reflexivity|]. intros Hm.
  apply orb_false_iff in Hm as [Hc Hr]. rewrite Hc. f_equal. auto.
Qed.

Lemma lstrip_no_mention (s : string) :
  has_mention s = false -> has_mention (py_lstrip s) = false.
Proof.
  induction s as [|c r IH]; simpl; [reflexivity|]. intros Hm.
  destruct (py_isspace c); [|exact Hm].
  apply orb_false_iff in Hm as [_ Hr]. auto.
Qed.

Lemma rstrip_starts_with_word (s : string) :
  starts_with_word s = false -> starts_with_word (py_rstrip s) = false.
Proof.
  destruct s as [|c r]; simpl; [reflexivity|]. intros Hc.
  now destruct (negb (truthy (py_rstrip r)) && py_isspace c).
Qed.

Lemma rstrip_no_mention (s : string) :
  has_mention s = false -> has_mention (py_rstrip s) = false.
Proof.
  induction s as [|c r IH]; simpl; [reflexivity|]. intros Hm.
  apply orb_false_iff in Hm as [Hc Hr].
  destruct (negb (truthy (py_rstrip r)) && py_isspace c); [reflexivity|].
  simpl. rewrite (IH Hr), orb_false_r.
  destruct (Ascii.eqb c at_sign); [|reflexivity]. simpl in *.
  now apply rstrip_starts_with_word.
Qed.

Lemma lstrip_no_space (s : string) : starts_with_space (py_lstrip s) = false.
Proof.
  induction s as [|c r IH]; simpl; [reflexivity|].
  destruct (py_isspace c) eqn:E; [exact IH|]. simpl. exact E.
Qed.

Lemma rstrip_starts_with_space (s : string) :
  starts_with_space s = false -> starts_with_space (py_rstrip s) = false.
Proof.
  destruct s as [|c r]; simpl; [reflexivity|]. intros Hc.
  now destruct (negb (truthy (py_rstrip r)) && py_isspace c).
Qed.

Lemma rstrip_no_space (s : string) : ends_with_space (py_rstrip s) = false.
Proof.
  induction s as [|c r IH]; simpl; [reflexivity|].
  destruct (py_rstrip r) as [|d r'] eqn:E; simpl.
  - destruct (py_isspace c) eqn:Ec; simpl; [reflexivity|exact Ec].
  - exact IH.
Qed.

Lemma lstrip_fixed (s : string) : starts_with_space s = false -> py_lstrip s = s.
Proof. destruct s as [|c r]; simpl; [reflexivity|]. now intros ->. Qed.

Lemma rstrip_fixed (s : string) : ends_with_space s = false -> py_rstrip s = s.
Proof.
  induction s as [|c r IH]; simpl; [reflexivity|].
  destruct r as [|d r'].
  - simpl. now intros ->.
  - intros Hr. rewrite (IH Hr). reflexivity.
Qed.

(** X1.  The reason kept by [clean_reason] holds no "@" followed by a word
    character, and neither starts nor ends with white space; without
    arguments it is the empty string. *)
Theorem clean_reason_shape (args : option string) :
  has_mention (clean_reason args) = false
  /\ starts_with_space (clean_reason args) = false
  /\ ends_with_space (clean_reason args) = false
  /\ clean_reason None = EmptyString
  /\ clean_reason (Some EmptyString) = EmptyString.
Proof.
  repeat split; destruct args as [[|c r]|]; try reflexivity; unfold clean_reason, py_strip;
    cbn [truthy].
  - apply rstrip_no_mention, lstrip_no_mention, re_sub_no_mention.
  - apply rstrip_starts_with_space, lstrip_no_space.
  - apply rstrip_no_space.
Qed.

(** X2.  Sanitising a reason twice gives what sanitising it once gives. *)
Theorem clean_reason_idempotent (args : option string) :
  clean_reason (Some (clean_reason args)) = clean_reason args.
Proof.
  destruct (clean_reason_shape args) as (Hm & Hs & He & _).
  set (y := clean_reason args) in *. unfold clean_reason at 1.
  destruct (truthy y) eqn:Ey; [|now destruct y].
  unfold re_sub_mentions, py_strip.
  now rewrite (re_sub_fixed y Hm), (lstrip_fixed y Hs), (rstrip_fixed y He).
Qed.

End ReasonFacts.

(** *** User links, bot.py 232-234 *)

Lemma replace_lt_no_lt (s : string) :
  contains_char "<"%char (replace_char "<"%char "&lt;" s) = false.
Proof.
  induction s as [|x r IH]; simpl; [reflexivity|].
  destruct (Ascii.eqb x "<"%char) eqn:E; simpl; [exact IH|]. now rewrite E.
Qed.

Lemma replace_gt_no_gt (s : string) :
  contains_char ">"%char (replace_char ">"%char "&gt;" s) = false.
Proof.
  induction s as [|x r IH]; simpl; [reflexivity|].
  destruct (Ascii.eqb x ">"%char) eqn:E; simpl; [exact IH|]. now rewrite E.
Qed.

Lemma replace_gt_keeps_no_lt (s : string) :
  contains_char "<"%char s = false ->
  contains_char "<"%char (replace_char ">"%char "&gt;" s) = false.
Proof.
  induction s as [|x r IH]; simpl; [reflexivity|]. intros Hs.
  apply orb_false_iff in Hs as [Hx Hr].
  destruct (Ascii.eqb x ">"%char); simpl; [auto|]. rewrite Hx. auto.
Qed.

Lemma replace_absent (c : ascii) (by_str s : string) :
  contains_char c s = false -> replace_char c by_str s = s.
Proof.
  induction s as [|x r IH]; simpl; [reflexivity|]. intros Hs.
  apply orb_false_iff in Hs as [Hx Hr]. rewrite Hx. f_equal. auto.
Qed.

(** X3.  The label that [html_user_link] puts inside the link never holds
    "<" or ">", whatever the name; a non-empty name without these two
    characters is shown as it is, and a missing or empty name as "user". *)
Theorem html_safe_no_angle_brackets (name : option string) :
  contains_char "<"%char (html_safe name) = false
  /\ contains_char ">"%char (html_safe name) = false
  /\ (forall n, name = Some n -> truthy n = true ->
                contains_char "<"%char n = false -> contains_char ">"%char n = false ->
                html_safe name = n)
  /\ html_safe None = "user"%string
  /\ html_safe (Some EmptyString) = "user"%string.
Proof.
  unfold html_safe. repeat split.
  - apply replace_gt_keeps_no_lt, replace_lt_no_lt.
  - apply replace_gt_no_gt.
  - intros n -> Hn Hlt Hgt. simpl. rewrite Hn.
    now rewrite (replace_absent _ _ n Hlt), (replace_absent _ _ n Hgt).
Qed.

Example html_user_link_escapes :
  html_user_link 7 (Some "<b>Dave</b>"%string)
  = ("<a href=" ++ String double_quote "tg://user?id=7"
     ++ String double_quote ">&lt;b&gt;Dave&lt;/b&gt;</a>")%string
  /\ py_str_int (-100123) = "-100123"%string
  /\ py_str_int 0 = "0"%string.
Proof. repeat split; reflexivity. Qed.

(** *** Mentions past the end of the text, bot.py 244-260 *)

Lemma substring_nothing (n : nat) (s : string) : substring n 0 s = EmptyString.
Proof.
  revert s. induction n as [|n IH]; intros [|c r]; simpl; auto.
Qed.

Lemma py_slice_past_end (txt : string) (a b : Z) :
  Z.of_nat (String.length txt) <= a -> py_slice txt a b = EmptyString.
Proof.
  intros Ha. unfold py_slice, slice_bound.
  set (n := Z.of_nat (String.length txt)) in *.
  assert (Hn : 0 <= n) by (unfold n; lia).
  destruct (Z.ltb_spec a 0); [lia|].
  replace (Z.to_nat ((if b <? 0 then Z.max (b + n) 0 else Z.min b n) - Z.min a n))
    with 0%nat; [apply substring_nothing|].
  destruct (Z.ltb_spec b 0); lia.
Qed.

Section MentionEdges.
Context `{PyText}.

(** X4.  Without entities there is no mentioned username.  When the last
    mention entity starts at or past the end of the text, the slice is empty
    and the result is no username, not a failure; with no reply and no
    text_mention the message then has no target. *)
Theorem mention_past_end_gives_none (message : Message)
    (pre post : list MessageEntity) (ent : MessageEntity) (db : DB) :
  entities message = Some (pre ++ ent :: post) ->
  e_type ent = "mention"%string ->
  (forall e, In e post -> e_type e <> "mention"%string) ->
  Z.of_nat (String.length (message_text message)) <= e_offset ent ->
  extract_mention_username message = None
  /\ (reply_author message = None -> first_text_mention message = None ->
      extract_target_user message db = None).
Proof.
  intros Hents Htype Hpost Hoff.
  assert (Hnone : extract_mention_username message = None).
  { rewrite (extract_mention_username_last message pre post ent Hents Htype Hpost).
    unfold handle_of. now rewrite py_slice_past_end. }
  split; [exact Hnone|].
  intros Hr Ht. unfold extract_target_user. now rewrite Hr, Ht, Hnone.
Qed.

Lemma no_entities_no_username (message : Message) :
  entities message = None \/ entities message = Some [] ->
  extract_mention_username message = None.
Proof. unfold extract_mention_username. now intros [-> | ->]. Qed.

End MentionEdges.

Lemma mention_past_end_gives_none_witness :
  extract_mention_username
    (mkMessage (Some operator) group100 None (Some "/warn"%string) None
               (Some [mkEntity "bot_command" 0 5 None; mkEntity "mention" 9 4 None]))
  = None.
Proof.
  apply (@mention_past_end_gives_none Latin1
           (mkMessage (Some operator) group100 None (Some "/warn"%string) None
              (Some [mkEntity "bot_command" 0 5 None; mkEntity "mention" 9 4 None]))
           [mkEntity "bot_command" 0 5 None] [] (mkEntity "mention" 9 4 None) db_init
           eq_refl eq_refl).
  - intros e [].
  - simpl. lia.
Defined.

(** *** Inserting into the ledger, bot.py 114-139 *)

Lemma newest_goes_first (x : WarnRow) (l m : list WarnRow) :
  (forall y, In y l -> listed_before y x = false) ->
  fold_right insert_by (x :: m) l = x :: fold_right insert_by m l.
Proof.
  intros Hl. induction l as [|y t IH]; simpl; [reflexivity|].
  rewrite IH by (intros z Hz; apply Hl; now right). simpl.
  now rewrite (Hl y) by now left.
Qed.

Lemma listing_with_newest (x : WarnRow) (l : list WarnRow) :
  (forall y, In y l -> listed_before y x = false) ->
  order_by_recency (l ++ [x]) = x :: order_by_recency l.
Proof.
  intros Hl. unfold order_by_recency. rewrite fold_right_app. simpl.
  now apply newest_goes_first.
Qed.

(** A row stamped no earlier than [y] and with a larger id is listed
    strictly before [y]. *)
Lemma later_row_precedes (x y : WarnRow) :
  String.ltb (w_created_at x) (w_created_at y) = false ->
  w_id y < w_id x ->
  listed_before y x = false.
Proof.
  unfold listed_before, String.ltb. intros Ht Hid.
  destruct (String.compare (w_created_at x) (w_created_at y)); try discriminate.
  - apply Z.leb_gt. exact Hid.
  - reflexivity.
Qed.

Lemma filter_snoc {A} (p : A -> bool) (l : list A) (x : A) :
  filter p (l ++ [x]) = if p x then filter p l ++ [x] else filter p l.
Proof.
  rewrite filter_app. simpl. destruct (p x); [reflexivity|apply app_nil_r].
Qed.

Lemma of_pair_refl (c u : Z) (r : WarnRow) :
  w_chat_id r = c -> w_user_id r = u -> of_pair c u r = true.
Proof. intros <- <-. unfold of_pair. now rewrite !Z.eqb_refl. Qed.



Example add_warn_refusals :
  add_warn 100 7 "Dave" "soft" None None None "2024-06-01T12:00:00" (mkDB [] max_rowid [])
  = inl OperationalError
  /\ add_warn 100 7 "Dave" "hard" None None None "2024-06-01T12:00:00" (mkDB [] max_rowid [])
     = inl OperationalError
  /\ add_warn 100 7 "Dave" "soft" None None None "2024-06-01T12:00:00" sample_ledger
     = inl IntegrityError.
Proof. repeat split; reflexivity. Qed.


(** *** Amnesty after a warning, and amnesty in two steps, bot.py 185-212 *)

Lemma scope_of_row (scope : string) (r : WarnRow) :
  valid_warn_type scope = false \/ scope = w_warn_type r -> in_scope scope r = true.
Proof.
  unfold in_scope. intros [-> | ->]; [reflexivity|].
  destruct (valid_warn_type (w_warn_type r)); [apply String.eqb_refl|reflexivity].
Qed.

(** X6.  A warning that was just stored is what an amnesty of one record
    takes back: after [add_warn] succeeds with a clock not behind the pair's
    records, [amnesty_partial] with count 1 and a scope that covers the new
    kind leaves the rows of the ledger as they were before the warning.
    Only the id counter has moved on. *)
Theorem amnesty_one_undoes_add (c u : Z) (user_name warn_type scope : string)
    (reason : option string) (by_id : option Z) (by_name : option string)
    (now : string) (db : DB) :
  wf db ->
  valid_warn_type warn_type = true ->
  warns_seq db < max_rowid ->
  (forall y, In y (warns db) -> of_pair c u y = true ->
             String.ltb now (w_created_at y) = false) ->
  valid_warn_type scope = false \/ scope = warn_type ->
  exists db1 db2,
    add_warn c u user_name warn_type reason by_id by_name now db = inr db1
    /\ amnesty_partial c u 1 scope db1 = inr db2
    /\ warns db2 = warns db
    /\ participants db2 = participants db
    /\ warns_seq db2 = warns_seq db + 1.
Proof.
  intros Hwf Hkind Hroom Hclock Hscope.
  unfold add_warn. rewrite Hkind. cbn [negb].
  destruct (Z.leb_spec max_rowid (warns_seq db)); [lia|].
  set (x := mkWarn (warns_seq db + 1) c u (Some user_name) warn_type _ by_id by_name now).
  eexists. eexists. split; [reflexivity|].
  assert (Hold : forall r, In r (warns db) -> w_id r < w_id x).
  { intros r Hr. pose proof (wf_seq db Hwf) as Hs.
    eapply Forall_forall in Hs; eauto. simpl in *. lia. }
  assert (Hx : (of_pair c u x && in_scope scope x)%bool = true).
  { rewrite of_pair_refl by reflexivity. now rewrite scope_of_row. }
  assert (Hvictims : amnesty_victims c u 1 scope
                       (mkDB (warns db ++ [x]) (warns_seq db + 1) (participants db))
                     = [x]).
  { unfold amnesty_victims, qualifying, sql_limit. simpl warns.
    rewrite filter_snoc, Hx, listing_with_newest; [reflexivity|].
    intros y Hy. apply filter_In in Hy as [Hy Hp]. apply andb_prop in Hp as [Hp _].
    apply later_row_precedes; [now apply Hclock|now apply Hold]. }
  unfold amnesty_partial. simpl fits_int64. cbn [negb]. rewrite Hvictims.
  split; [reflexivity|]. unfold delete_ids. simpl. repeat split.
  rewrite filter_snoc. simpl. rewrite Z.eqb_refl. simpl.
  apply filter_all. intros r Hr. rewrite orb_false_r.
  apply negb_true_iff, Z.eqb_neq. specialize (Hold r Hr). simpl in Hold. lia.
Qed.

Lemma amnesty_one_undoes_add_witness :
  exists db1 db2,
    add_warn 100 7 "Dave" "hard" None (Some 578664673) (Some "Op"%string)
             "2024-06-01T12:00:00" sample_ledger = inr db1
    /\ amnesty_partial 100 7 1 "all" db1 = inr db2
    /\ warns db2 = warns sample_ledger.
Proof.
  destruct (amnesty_one_undoes_add 100 7 "Dave" "hard" "all" None (Some 578664673)
              (Some "Op"%string) "2024-06-01T12:00:00" sample_ledger
              sample_ledger_wf eq_refl) as (db1 & db2 & E1 & E2 & Hw & _).
  - unfold max_rowid. simpl. lia.
  - intros y Hy _. simpl in Hy.
    repeat (destruct Hy as [<-|Hy]; [reflexivity|]). contradiction.
  - now left.
  - exists db1, db2. auto.
Defined.

Lemma take_more (a b : nat) (l : list WarnRow) :
  firstn (a + b) l = firstn a l ++ firstn b (skipn a l).
Proof.
  revert l. induction a as [|a IH]; intros [|x t]; simpl; try reflexivity.
  - now rewrite firstn_nil.
  - now rewrite IH.
Qed.

Lemma id_in_app (ids1 ids2 : list Z) (r : WarnRow) :
  id_in (ids1 ++ ids2) r = id_in ids1 r || id_in ids2 r.
Proof. unfold id_in. apply existsb_app. Qed.

Lemma delete_twice (ids1 ids2 : list Z) (rows : list WarnRow) :
  filter (fun r => negb (id_in ids2 r)) (filter (fun r => negb (id_in ids1 r)) rows)
  = filter (fun r => negb (id_in (ids1 ++ ids2) r)) rows.
Proof.
  induction rows as [|r t IH]; cbn [filter]; [reflexivity|].
  rewrite id_in_app.
  destruct (id_in ids1 r); cbn [negb orb filter]; [exact IH|].
  destruct (id_in ids2 r); cbn [negb]; now rewrite IH.
Qed.

(** X7.  Two partial amnesties in a row amount to one: deleting up to [n]
    and then up to [m] records of a pair under the same scope leaves the
    database that deleting up to [n + m] at once leaves. *)
Theorem amnesty_partial_composes (c u n m : Z) (kind : string) (db : DB) :
  wf db -> 0 <= n -> 0 <= m -> n + m <= max_rowid ->
  exists db1 db2,
    amnesty_partial c u n kind db = inr db1
    /\ amnesty_partial c u m kind db1 = inr db2
    /\ amnesty_partial c u (n + m) kind db = inr db2.
Proof.
  intros Hwf Hn Hm Hmax.
  pose proof (wf_ids db Hwf) as Hids.
  set (db1 := delete_ids (map w_id (amnesty_victims c u n kind db)) db).
  assert (Hwf1 : wf db1) by (unfold db1, delete_ids; now apply filter_warns_wf).
  exists db1, (delete_ids (map w_id (amnesty_victims c u m kind db1)) db1).
  unfold amnesty_partial.
  rewrite !fits_int64_count by lia. cbn [negb].
  split; [reflexivity|]. split; [reflexivity|]. f_equal.
  pose proof (survivors_listing c u n kind db Hids Hn) as Hsurv. fold db1 in Hsurv.
  pose proof (victims_firstn c u n kind db Hn) as H1.
  pose proof (victims_firstn c u m kind db1 Hm) as H2.
  pose proof (victims_firstn c u (n + m) kind db ltac:(lia)) as H12.
  rewrite Hsurv in H2.
  assert (Hlen1 : List.length (qualifying c u kind db1)
                  = (List.length (qualifying c u kind db)
                     - Z.to_nat (Z.min n (Z.of_nat (List.length (qualifying c u kind db)))))%nat).
  { rewrite <- (Permutation_length (order_by_recency_perm (qualifying c u kind db1))).
    rewrite Hsurv, length_skipn.
    now rewrite (Permutation_length (order_by_recency_perm (qualifying c u kind db))). }
  rewrite Hlen1 in H2.
  set (L := List.length (qualifying c u kind db)) in *.
  set (S := order_by_recency (qualifying c u kind db)) in *.
  assert (Hsplit : amnesty_victims c u (n + m) kind db
                   = amnesty_victims c u n kind db ++ amnesty_victims c u m kind db1).
  { rewrite H1, H2, H12, <- take_more. f_equal. lia. }
  unfold delete_ids. simpl. f_equal.
  now rewrite delete_twice, <- map_app, <- Hsplit.
Qed.

Lemma amnesty_partial_composes_witness :
  exists db1 db2,
    amnesty_partial 100 7 1 "warn" sample_ledger = inr db1
    /\ amnesty_partial 100 7 1 "warn" db1 = inr db2
    /\ amnesty_partial 100 7 2 "warn" sample_ledger = inr db2
    /\ map w_id (warns db2) = [1; 2; 3].
Proof.
  destruct (amnesty_partial_composes 100 7 1 1 "warn" sample_ledger sample_ledger_wf)
    as (db1 & db2 & E1 & E2 & E12); try (unfold max_rowid; lia).
  exists db1, db2. repeat split; auto.
  vm_compute in E12. injection E12 as <-. reflexivity.
Defined.

(** *** The chat summary, bot.py 168-183 *)

Lemma insert_uid_in (u x : Z) (l : list Z) :
  In x (insert_uid u l) <-> x = u \/ In x l.
Proof.
  induction l as [|y t IH]; simpl; [intuition congruence|].
  destruct (Z.ltb_spec u y); simpl; [intuition congruence|].
  destruct (Z.eqb_spec u y); simpl.
  - subst. intuition congruence.
  - rewrite IH. intuition congruence.
Qed.

Lemma insert_uid_increasing (u : Z) (l : list Z) :
  StronglySorted Z.lt l -> StronglySorted Z.lt (insert_uid u l).
Proof.
  induction 1 as [|y t Hs IH Hy]; simpl; [repeat constructor|].
  destruct (Z.ltb_spec u y).
  - constructor; [now constructor|]. constructor; [assumption|].
    eapply Forall_impl; [|exact Hy]. simpl. intros; lia.
  - destruct (Z.eqb_spec u y); [now constructor|].
    constructor; [exact IH|]. apply Forall_forall. intros x Hx.
    apply insert_uid_in in Hx as [->|Hx]; [lia|].
    eapply Forall_forall in Hy; eauto.
Qed.

Lemma users_in (ids : list Z) (x : Z) :
  In x (fold_right insert_uid [] ids) <-> In x ids.
Proof.
  induction ids as [|y t IH]; simpl; [tauto|].
  rewrite insert_uid_in, IH. intuition congruence.
Qed.

Lemma users_increasing (ids : list Z) :
  StronglySorted Z.lt (fold_right insert_uid [] ids).
Proof.
  induction ids; simpl; [constructor|now apply insert_uid_increasing].
Qed.

Lemma increasing_nodup (l : list Z) : StronglySorted Z.lt l -> NoDup l.
Proof.
  induction 1 as [|y t Hs IH Hy]; constructor; [|exact IH].
  intros Hin. eapply Forall_forall in Hy; eauto. lia.
Qed.

Lemma insert_summary_perm (r : SummaryRow) (l : list SummaryRow) :
  Permutation (insert_summary r l) (r :: l).
Proof.
  induction l as [|x t IH]; simpl; [reflexivity|].
  destruct (summary_before r x); [reflexivity|].
  rewrite IH. apply perm_swap.
Qed.

Lemma summaries_perm (l : list SummaryRow) :
  Permutation (fold_right insert_summary [] l) l.
Proof.
  induction l as [|x t IH]; simpl; [reflexivity|].
  rewrite insert_summary_perm. now constructor.
Qed.

Lemma summary_before_ranks (a b : SummaryRow) :
  summary_before a b = true <-> ranks_before a b.
Proof.
  destruct a as [[[ua na] wa] ha], b as [[[ub nb] wb] hb].
  unfold summary_before, ranks_before, summary_total, summary_warn, summary_hard.
  rewrite orb_true_iff, andb_true_iff, Z.ltb_lt, Z.eqb_eq, Z.leb_le. tauto.
Qed.

Lemma ranks_before_total (a b : SummaryRow) : ranks_before a b \/ ranks_before b a.
Proof. unfold ranks_before. lia. Qed.

Lemma ranks_before_trans (a b c : SummaryRow) :
  ranks_before a b -> ranks_before b c -> ranks_before a c.
Proof. unfold ranks_before. lia. Qed.

Lemma insert_summary_ranked (r : SummaryRow) (l : list SummaryRow) :
  StronglySorted ranks_before l -> StronglySorted ranks_before (insert_summary r l).
Proof.
  induction 1 as [|x t Hs IH Hx]; simpl; [repeat constructor|].
  destruct (summary_before r x) eqn:E.
  - apply summary_before_ranks in E.
    constructor; [now constructor|]. constructor; [exact E|].
    eapply Forall_impl; [|exact Hx]. intros y Hy. eapply ranks_before_trans; eauto.
  - constructor; [exact IH|].
    assert (Hxr : ranks_before x r).
    { destruct (ranks_before_total r x) as [C|C]; [|exact C].
      apply summary_before_ranks in C. congruence. }
    eapply Permutation_Forall; [symmetry; apply insert_summary_perm|].
    now constructor.
Qed.

Lemma pair_rows (c u : Z) (rows : list WarnRow) :
  filter (fun r => w_user_id r =? u) (filter (fun r => w_chat_id r =? c) rows)
  = filter (of_pair c u) rows.
Proof.
  induction rows as [|r t IH]; cbn [filter]; [reflexivity|]. unfold of_pair at 1.
  destruct (w_chat_id r =? c); cbn [filter andb]; [|exact IH].
  destruct (w_user_id r =? u); now rewrite IH.
Qed.

Lemma summary_of_counts (c u : Z) (db : DB) :
  let s := summary_of (filter (fun r => w_chat_id r =? c) (warns db)) u in
  summary_user s = u
  /\ (summary_warn s, summary_hard s) = get_user_counts c u db.
Proof.
  unfold summary_of. simpl. rewrite get_user_counts_eq, pair_rows. auto.
Qed.

(** X8.  [get_all_counts] gives one row per user with a record in the
    chat, and no other row; the two counts of a row are what
    [get_user_counts] gives for that user.  It is empty exactly when the
    chat has no record. *)
Theorem get_all_counts_rows (c : Z) (db : DB) :
  (forall row, In row (get_all_counts c db) ->
     (summary_warn row, summary_hard row) = get_user_counts c (summary_user row) db
     /\ exists r, In r (warns db) /\ of_pair c (summary_user row) r = true)
  /\ (forall r, In r (warns db) -> w_chat_id r = c ->
        exists row, In row (get_all_counts c db) /\ summary_user row = w_user_id r)
  /\ NoDup (map summary_user (get_all_counts c db))
  /\ (get_all_counts c db = [] <-> forall r, In r (warns db) -> w_chat_id r <> c).
Proof.
  unfold get_all_counts.
  set (rows := filter (fun r => w_chat_id r =? c) (warns db)).
  set (users := fold_right insert_uid [] (map w_user_id rows)).
  pose proof (summaries_perm (map (summary_of rows) users)) as Hperm.
  assert (Huser : forall u, summary_user (summary_of rows u) = u) by reflexivity.
  assert (Hin : forall u, In u users <-> exists r, In r (warns db) /\ of_pair c u r = true).
  { intros u. unfold users. rewrite users_in, in_map_iff. unfold rows. split.
    - intros [r [<- Hr]]. apply filter_In in Hr as [Hr Hc]. exists r. split; [exact Hr|].
      unfold of_pair. now rewrite Hc, Z.eqb_refl.
    - intros [r [Hr Hp]]. unfold of_pair in Hp. apply andb_prop in Hp as [Hc Hu].
      exists r. split; [now apply Z.eqb_eq|]. apply filter_In. auto. }
  split; [|split; [|split]].
  - intros row Hrow. apply (Permutation_in _ Hperm) in Hrow.
    apply in_map_iff in Hrow as [u [<- Hu]]. rewrite Huser. split.
    + apply (summary_of_counts c u db).
    + now apply Hin.
  - intros r Hr Hc. exists (summary_of rows (w_user_id r)). split; [|reflexivity].
    apply (Permutation_in _ (Permutation_sym Hperm)), in_map, Hin.
    exists r. split; [exact Hr|]. now apply of_pair_refl.
  - eapply Permutation_NoDup; [apply Permutation_map, Permutation_sym, Hperm|].
    rewrite map_map. rewrite (map_ext _ (fun u => u)) by exact Huser. rewrite map_id.
    apply increasing_nodup, users_increasing.
  - split.
    + intros E r Hr Hc. rewrite E in Hperm. apply Permutation_nil in Hperm.
      assert (Hu : In (w_user_id r) users).
      { apply Hin. exists r. split; [exact Hr|]. now apply of_pair_refl. }
      apply (in_map (summary_of rows)) in Hu. rewrite Hperm in Hu. contradiction.
    + intros Hnone.
      assert (Hall : forall u, In u users -> False).
      { intros u Hu. apply Hin in Hu as [r [Hr Hp]]. apply (Hnone r Hr).
        unfold of_pair in Hp. apply andb_prop in Hp as [Hc _]. now apply Z.eqb_eq. }
      clear Hin Hperm. clearbody users.
      destruct users as [|u t]; [reflexivity|]. exfalso. apply (Hall u). now left.
Qed.

(** X9.  The rows of [get_all_counts] come by total descending, and by the
    severe count descending among equal totals. *)
Theorem get_all_counts_ranked (c : Z) (db : DB) :
  StronglySorted ranks_before (get_all_counts c db).
Proof.
  unfold get_all_counts.
  induction (map _ _) as [|x t IH]; simpl; [constructor|].
  now apply insert_summary_ranked.
Qed.

Example summary_of_sample_ledger :
  get_all_counts 100 sample_ledger
  = [(7, "Dave"%string, 3, 1); (8, "Dave"%string, 1, 0)].
Proof. reflexivity. Qed.

(** *** Upserting a participant, bot.py 72-95 *)

Lemma same_participant_self (row : ParticipantRow) :
  same_participant (p_chat_id row) (p_user_id row) row = true.
Proof. unfold same_participant. now rewrite !Z.eqb_refl. Qed.

Lemma upsert_row_overwrites (row1 row2 : ParticipantRow) (rows : list ParticipantRow) :
  participant_key row1 = participant_key row2 ->
  upsert_row row2 (upsert_row row1 rows) = upsert_row row2 rows.
Proof.
  intros Hk. injection Hk as Hc Hu.
  induction rows as [|p t IH]; simpl.
  - rewrite <- Hc, <- Hu. now rewrite same_participant_self.
  - rewrite Hc, Hu.
    destruct (same_participant (p_chat_id row2) (p_user_id row2) p) eqn:E; simpl.
    + rewrite <- Hc, <- Hu. now rewrite same_participant_self.
    + rewrite E. now rewrite IH.
Qed.

Lemma upsert_row_others (row : ParticipantRow) (rows : list ParticipantRow) :
  filter (fun p => negb (same_participant (p_chat_id row) (p_user_id row) p))
         (upsert_row row rows)
  = filter (fun p => negb (same_participant (p_chat_id row) (p_user_id row) p)) rows.
Proof.
  induction rows as [|p t IH]; simpl.
  - now rewrite same_participant_self.
  - destruct (same_participant (p_chat_id row) (p_user_id row) p) eqn:E; simpl.
    + now rewrite same_participant_self.
    + now rewrite E, IH.
Qed.

Lemma upsert_row_holds (row : ParticipantRow) (rows : list ParticipantRow) :
  In row (upsert_row row rows).
Proof.
  induction rows as [|p t IH]; simpl; [now left|].
  destruct (same_participant (p_chat_id row) (p_user_id row) p); simpl; auto.
Qed.

Lemma key_determines_row (rows : list ParticipantRow) (a b : ParticipantRow) :
  NoDup (map participant_key rows) -> In a rows -> In b rows ->
  participant_key a = participant_key b -> a = b.
Proof.
  induction rows as [|x t IH]; simpl; [contradiction|].
  intros Hnd Ha Hb E. inversion Hnd as [|? ? Hx Ht]; subst.
  destruct Ha as [<-|Ha], Hb as [<-|Hb]; auto.
  - exfalso. apply Hx. rewrite E. now apply in_map.
  - exfalso. apply Hx. rewrite <- E. now apply in_map.
Qed.

Section UpsertFacts.
Context `{PyText}.

(** X10.  [participant_upsert] keeps one row per (chat, user) and the last
    write wins: afterwards the only row of the pair is the new profile, a
    second upsert of the same account replaces what the first wrote, and
    repeating an upsert changes nothing.  The rows of all other pairs stay
    as they were and in their order, the table grows by at most one row, and
    the ledger is not touched.  Without a user nothing is written. *)
Theorem participant_upsert_last_write_wins (c : Z) (user : User) (now : string) (db : DB) :
  wf db ->
  let db' := participant_upsert c (Some user) now db in
  let mine := same_participant c (u_id user) in
  (forall p, In p (participants db') -> mine p = true -> p = participant_row c user now)
  /\ In (participant_row c user now) (participants db')
  /\ filter (fun p => negb (mine p)) (participants db')
     = filter (fun p => negb (mine p)) (participants db)
  /\ List.length (participants db')
     = (if existsb mine (participants db) then List.length (participants db)
        else S (List.length (participants db)))
  /\ (forall other later, u_id other = u_id user ->
        participant_upsert c (Some other) later db'
        = participant_upsert c (Some other) later db)
  /\ participant_upsert c (Some user) now db' = db'
  /\ warns db' = warns db /\ warns_seq db' = warns_seq db
  /\ (forall t, participant_upsert c None t db = db).
Proof.
  intros Hwf db' mine.
  pose proof (participant_upsert_wf c (Some user) now db Hwf) as Hwf'.
  fold db' in Hwf'.
  split; [|split; [|split; [|split; [|split; [|split; [|repeat split]]]]]].
  - intros p Hp Hm.
    apply (key_determines_row (participants db')); auto.
    + apply (wf_participants _ Hwf').
    + apply upsert_row_holds.
    + unfold mine, same_participant in Hm. apply andb_prop in Hm as [Hc Hu].
      apply Z.eqb_eq in Hc, Hu. unfold participant_key. simpl. congruence.
  - apply upsert_row_holds.
  - apply (upsert_row_others (participant_row c user now)).
  - unfold db'. simpl.
    rewrite <- (length_map participant_key), upsert_row_keys. simpl.
    fold mine. destruct (existsb mine (participants db)).
    + apply length_map.
    + rewrite length_app, length_map. simpl. lia.
  - intros other later Hid. unfold db', participant_upsert. simpl. f_equal.
    apply upsert_row_overwrites. unfold participant_key. simpl. congruence.
  - unfold db', participant_upsert. simpl. f_equal. now apply upsert_row_overwrites.
Qed.

(** X11.  A user is reached only through the handle of the last sighting:
    if a lookup in the chat returns the upserted user, the handle looked up
    is the lower-cased handle just stored.  An older handle of that user no
    longer leads to that user, and (lower-casing the empty string being
    empty) a user sighted without handle is reached through no handle. *)
Theorem lookup_follows_last_sighting (c : Z) (user : User) (now : string) (db : DB)
    (x : string) (f : Found) :
  wf db ->
  find_participant_by_username c x (participant_upsert c (Some user) now db) = Some f ->
  f_id f = u_id user ->
  or_none (Some (py_lower (match or_none (u_username user) with
                           | Some s => s | None => EmptyString end))) = Some x
  /\ (py_lower EmptyString = EmptyString -> or_none (u_username user) <> None).
Proof.
  intros Hwf Hfind Hid.
  pose proof (participant_upsert_wf c (Some user) now db Hwf) as Hwf'.
  unfold find_participant_by_username in Hfind.
  destruct (find _ _) as [p|] eqn:E; [|discriminate].
  injection Hfind as <-. simpl in Hid.
  apply find_some in E as [Hin Hm].
  unfold handle_matches in Hm. apply andb_prop in Hm as [Hc Hx].
  apply Z.eqb_eq in Hc.
  assert (Hp : p = participant_row c user now).
  { apply (key_determines_row _ _ _ (wf_participants _ Hwf') Hin).
    - apply upsert_row_holds.
    - unfold participant_key. simpl. congruence. }
  subst p. unfold participant_row in Hx. cbn [p_username_lower] in Hx.
  destruct (or_none (Some (py_lower _))) as [s|] eqn:Es; [|discriminate].
  apply String.eqb_eq in Hx. subst s. split; [reflexivity|].
  intros Hempty Hnone. rewrite Hnone, Hempty in Es. discriminate.
Qed.

End UpsertFacts.

Lemma directory_with_bob_wf : wf directory_with_bob.
Proof. solve_wf. Qed.

Lemma participant_upsert_last_write_wins_witness :
  map p_username (participants
                    (participant_upsert 100 (Some (mkUser 10 (Some "bobby"%string) "Bob" None))
                       "2024-06-02T09:00:00" directory_with_bob))
  = [Some "bobby"%string].
Proof.
  destruct (@participant_upsert_last_write_wins Latin1 100
              (mkUser 10 (Some "bobby"%string) "Bob" None) "2024-06-02T09:00:00"
              directory_with_bob directory_with_bob_wf) as (Honly & Hin & _).
  reflexivity.
Defined.

Lemma lookup_follows_last_sighting_witness :
  or_none (Some (py_lower "bob")) = Some "bob"%string.
Proof.
  exact (proj1 (@lookup_follows_last_sighting Latin1 100 early_bob "2024-05-01T09:00:00"
                  db_init "bob" (mkFound 10 "Bob") db_init_wf eq_refl eq_refl)).
Defined.

Section DisplayName.
Context `{PyText}.

(** X12.  The name the directory gives back is never empty, and for a user
    with a first name it is the full name the platform gives: after an
    upsert, looking the user up by handle (no other user of the chat
    carrying it) returns the user's id with that same full name, so a
    warning addressed by @handle stores the name a warning addressed by
    reply stores. *)
Theorem directory_keeps_display_name (db : DB) (A : Z) (user : User) (h now : string) :
  u_username user = Some h -> truthy h = true -> truthy (py_lower h) = true ->
  truthy (u_first_name user) = true ->
  (forall p, In p (participants db) -> p_chat_id p = A ->
             p_username_lower p = Some (py_lower h) -> p_user_id p = u_id user) ->
  find_participant_by_username A (py_lower h) (participant_upsert A (Some user) now db)
  = Some (mkFound (u_id user) (user_full_name user))
  /\ (forall p, truthy (found_full_name p) = true).
Proof.
  intros Hu Hh Hl Hfirst Honly. split.
  - pose proof (participant_row_matches A user h now Hu Hh Hl) as Hrow.
    destruct (upsert_row_first_match A (py_lower h) _ (participants db) Hrow)
      as [p [Hfind [->|[Hin [Hm Hs]]]]].
    + unfold find_participant_by_username, participant_upsert. simpl. rewrite Hfind.
      f_equal. unfold found_full_name, participant_row, user_full_name, opt_truthy.
      simpl. destruct (u_first_name user) as [|a first]; [discriminate|].
      destruct (u_last_name user) as [[|b last]|]; reflexivity.
    + exfalso. unfold handle_matches in Hm. apply andb_prop in Hm as [Hc Hx].
      apply Z.eqb_eq in Hc. destruct (p_username_lower p) as [s|] eqn:Es; [|discriminate].
      apply String.eqb_eq in Hx. subst s.
      unfold same_participant in Hs. simpl in Hs.
      rewrite Hc, (Honly p Hin Hc Es), !Z.eqb_refl in Hs. discriminate.
  - intros p. unfold found_full_name.
    destruct (truthy (join_names _)) eqn:E; [exact E|].
    now destruct (or_none (p_username p)).
Qed.

End DisplayName.

Lemma directory_keeps_display_name_witness :
  find_participant_by_username 100 "dave"
    (participant_upsert 100 (Some (mkUser 7 (Some "Dave"%string) "Dave" (Some "Lee"%string)))
       "2024-05-01T09:00:00" directory_with_bob)
  = Some (mkFound 7 "Dave Lee").
Proof.
  apply (@directory_keeps_display_name Latin1 directory_with_bob 100
           (mkUser 7 (Some "Dave"%string) "Dave" (Some "Lee"%string)) "Dave"
           "2024-05-01T09:00:00" eq_refl eq_refl eq_refl eq_refl).
  intros p [<-|[]] _ E. discriminate E.
Defined.

(** *** What every handler does, bot.py 296-524 *)

Section Keeping.
Variable R : World -> World -> Prop.
Hypothesis R_of_same : forall w w', ledger_same w w' -> R w w'.
Hypothesis R_trans : forall a b c, R a b -> R b c -> R a c.

Lemma keeps_ret {A} (a : A) : keeps R (ret a).
Proof. intros env w. apply R_of_same. now split. Qed.

Lemma keeps_raise {A} (e : PyExn) : keeps R (@raise A e).
Proof. intros env w. apply R_of_same. now split. Qed.

Lemma keeps_answer (r : Reply) : keeps R (answer r).
Proof. intros env w. apply R_of_same. now split. Qed.

Lemma keeps_read_clock : keeps R read_clock.
Proof. intros env w. apply R_of_same. now split. Qed.

Lemma keeps_query {A} (q : DB -> A) : keeps R (query q).
Proof. intros env w. apply R_of_same. now split. Qed.

Lemma keeps_bind {A B} (m : M A) (k : A -> M B) :
  keeps R m -> (forall a, keeps R (k a)) -> keeps R (bind m k).
Proof.
  intros Hm Hk env w. unfold bind. specialize (Hm env w).
  destruct (m env w) as [a w'|e w']; simpl in *; [|exact Hm].
  eapply R_trans; [exact Hm|apply Hk].
Qed.

Lemma keeps_is_admin (c u : Z) : keeps R (is_admin c u).
Proof.
  apply keeps_bind.
  - intros env w. apply R_of_same. now split.
  - intros [[]|status]; auto using @keeps_ret, @keeps_raise.
Qed.

Lemma keeps_update (f : DB -> DB) :
  (forall w, R w (mkWorld (f (st_db w)) (st_tick w) (st_sent w))) -> keeps R (update f).
Proof. intros Hf env w. apply Hf. Qed.

Lemma keeps_try_update (f : DB -> PyExn + DB) :
  (forall w db', f (st_db w) = inr db' -> R w (mkWorld db' (st_tick w) (st_sent w))) ->
  keeps R (try_update f).
Proof.
  intros Hf env w. unfold try_update.
  destruct (f (st_db w)) as [e|db'] eqn:E; simpl; [|now apply Hf].
  apply R_of_same. now split.
Qed.

Context `{PyText}.

Lemma keeps_track (message : Message) : keeps R (track_message_participants message).
Proof.
  intros env w. apply R_of_same. rewrite track_done. simpl.
  destruct (after_tracking_ledger message env w) as (Hw & Hs & _). now split.
Qed.

Lemma keeps_require_sender (message : Message) : keeps R (require_sender message).
Proof. unfold require_sender. destruct (from_user message); [apply keeps_ret|apply keeps_raise]. Qed.

End Keeping.

Lemma ledger_same_trans (a b c : World) :
  ledger_same a b -> ledger_same b c -> ledger_same a c.
Proof. unfold ledger_same. intros [H1 H2] [H3 H4]. split; congruence. Qed.

Lemma ids_fresh_of_same (w w' : World) : ledger_same w w' -> ids_fresh w w'.
Proof.
  intros [Hw Hs]. unfold ids_fresh. rewrite Hw, Hs. split; [lia|auto].
Qed.

Lemma ids_fresh_trans (a b c : World) : ids_fresh a b -> ids_fresh b c -> ids_fresh a c.
Proof.
  intros [H1 H2] [H3 H4]. split; [lia|].
  intros r Hr. destruct (H4 r Hr) as [Hb|Hb]; [auto|right; lia].
Qed.

Lemma ids_fresh_add_warn (c u : Z) (name k : string) (reason : option string)
    (by_id : option Z) (by_name : option string) (now : string) (w : World) (db' : DB) :
  add_warn c u name k reason by_id by_name now (st_db w) = inr db' ->
  ids_fresh w (mkWorld db' (st_tick w) (st_sent w)).
Proof.
  unfold add_warn. destruct (max_rowid <=? warns_seq (st_db w)); [discriminate|].
  destruct (negb (valid_warn_type k)); [discriminate|].
  intros E. injection E as <-. split; simpl; [lia|].
  intros r Hr. apply in_app_or in Hr as [Hr|[<-|[]]]; [now left|right; simpl; lia].
Qed.

Lemma ids_fresh_filter (p : WarnRow -> bool) (w : World) :
  ids_fresh w (mkWorld (mkDB (filter p (warns (st_db w))) (warns_seq (st_db w))
                             (participants (st_db w)))
                       (st_tick w) (st_sent w)).
Proof.
  split; simpl; [lia|]. intros r Hr. apply filter_In in Hr as [Hr _]. now left.
Qed.

Lemma ids_fresh_amnesty_partial (c u n : Z) (kind : string) (w : World) (db' : DB) :
  amnesty_partial c u n kind (st_db w) = inr db' ->
  ids_fresh w (mkWorld db' (st_tick w) (st_sent w)).
Proof.
  unfold amnesty_partial. destruct (negb (fits_int64 n)); [discriminate|].
  intros E. injection E as <-. apply ids_fresh_filter.
Qed.

Section EveryHandler.
Context `{PyText}.

Ltac same_ledger :=
  repeat first
    [ apply (keeps_answer ledger_same); [auto]
    | apply (keeps_ret ledger_same); [auto]
    | apply (keeps_raise ledger_same); [auto]
    | apply (keeps_query ledger_same); [auto]
    | apply (keeps_track ledger_same); [auto]
    | apply (keeps_require_sender ledger_same); [auto]
    | apply (keeps_bind ledger_same ledger_same_trans); [|intros]
    | match goal with
      | |- keeps _ (if ?b then _ else _) => destruct b
      | |- keeps _ (match ?x with _ => _ end) => destruct x
      end ].

(** X13.  The commands that are not guarded by the administrator check
    (start, help, warns, allwarns) never change the ledger: whatever the
    message, the membership answers and the outcome, the warning records and
    the id counter are afterwards what they were. *)
Theorem read_only_commands_keep_ledger (cmd : Command) (message : Message)
    (command : option (option string)) (env : Env) (w : World) :
  mutating cmd = false ->
  warns (st_db (world_of (run (handle cmd message command) env w))) = warns (st_db w)
  /\ warns_seq (st_db (world_of (run (handle cmd message command) env w)))
     = warns_seq (st_db w).
Proof.
  intros Hm.
  assert (Hk : keeps ledger_same (handle cmd message command)).
  { destruct cmd; try discriminate; open_handler; same_ledger. }
  exact (Hk env w).
Qed.

Ltac fresh_ids :=
  repeat first
    [ apply (keeps_answer ids_fresh ids_fresh_of_same)
    | apply (keeps_ret ids_fresh ids_fresh_of_same)
    | apply (keeps_raise ids_fresh ids_fresh_of_same)
    | apply (keeps_query ids_fresh ids_fresh_of_same)
    | apply (keeps_read_clock ids_fresh ids_fresh_of_same)
    | apply (keeps_track ids_fresh ids_fresh_of_same)
    | apply (keeps_require_sender ids_fresh ids_fresh_of_same)
    | apply (keeps_is_admin ids_fresh ids_fresh_of_same ids_fresh_trans)
    | apply (keeps_update ids_fresh); intros; apply ids_fresh_filter
    | apply (keeps_try_update ids_fresh ids_fresh_of_same); intros;
      solve [eapply ids_fresh_add_warn; eauto | eapply ids_fresh_amnesty_partial; eauto]
    | apply (keeps_bind ids_fresh ids_fresh_trans); [|intros]
    | match goal with
      | |- keeps _ (if ?b then _ else _) => destruct b
      | |- keeps _ (match ?x with _ => _ end) => destruct x
      end ].

(** X14.  Ids are never given twice: whatever command is handled, the id
    counter does not go back, and every record present afterwards that was
    not present before has an id above the old counter, hence (the counter
    bounding all ids in use) different from the id of every record stored
    so far, deleted ones included. *)
Theorem handlers_never_reuse_ids (cmd : Command) (message : Message)
    (command : option (option string)) (env : Env) (w : World) :
  let w' := world_of (run (handle cmd message command) env w) in
  warns_seq (st_db w) <= warns_seq (st_db w')
  /\ (forall r, In r (warns (st_db w')) ->
                In r (warns (st_db w)) \/ warns_seq (st_db w) < w_id r)
  /\ (wf (st_db w) ->
      forall r old, In r (warns (st_db w')) -> ~ In r (warns (st_db w)) ->
                    In old (warns (st_db w)) -> w_id r <> w_id old).
Proof.
  assert (Hk : keeps ids_fresh (handle cmd message command)).
  { destruct cmd; open_handler; fresh_ids. }
  destruct (Hk env w) as [Hseq Hnew]. cbv zeta. split; [exact Hseq|]. split; [exact Hnew|].
  intros Hwf r old Hr Hnot Hold. destruct (Hnew r Hr) as [Hin|Hid]; [contradiction|].
  pose proof (wf_seq _ Hwf) as Hs. eapply Forall_forall in Hs; eauto. simpl in Hs. lia.
Qed.

End EveryHandler.

Lemma silent_ret {A} (a : A) : silent (ret a).
Proof. intros env w. reflexivity. Qed.

Lemma silent_raise {A} (e : PyExn) : silent (@raise A e).
Proof. intros env w. reflexivity. Qed.

Lemma silent_read_clock : silent read_clock.
Proof. intros env w. reflexivity. Qed.

Lemma silent_query {A} (q : DB -> A) : silent (query q).
Proof. intros env w. reflexivity. Qed.

Lemma silent_update (f : DB -> DB) : silent (update f).
Proof. intros env w. reflexivity. Qed.

Lemma silent_try_update (f : DB -> PyExn + DB) : silent (try_update f).
Proof. intros env w. unfold try_update. now destruct (f (st_db w)). Qed.

Lemma silent_bind {A B} (m : M A) (k : A -> M B) :
  silent m -> (forall a, silent (k a)) -> silent (bind m k).
Proof.
  intros Hm Hk env w. unfold bind. specialize (Hm env w).
  destruct (m env w) as [a w'|e w']; simpl in *; [|exact Hm].
  now rewrite (Hk a env w').
Qed.

Lemma silent_is_admin (c u : Z) : silent (is_admin c u).
Proof.
  apply silent_bind; [intros env w; reflexivity|].
  intros [[]|status]; auto using @silent_ret, @silent_raise.
Qed.

Lemma replies_once_answer (r : Reply) : replies_once (answer r).
Proof. intros env w. simpl. eauto. Qed.

Lemma replies_once_bind {A B} (m : M A) (k : A -> M B) :
  silent m -> (forall a, replies_once (k a)) -> replies_once (bind m k).
Proof.
  intros Hm Hk env w. unfold bind. specialize (Hm env w).
  destruct (m env w) as [a w'|e w']; simpl in *; [|exact Hm].
  specialize (Hk a env w'). destruct (k a env w') as [b w''|e w'']; now rewrite <- Hm.
Qed.

Section OneReply.
Context `{PyText}.

Lemma silent_track (message : Message) : silent (track_message_participants message).
Proof.
  intros env w. rewrite track_done. simpl.
  now destruct (after_tracking_ledger message env w) as (_ & _ & Hs).
Qed.

Lemma silent_require_sender (message : Message) : silent (require_sender message).
Proof.
  unfold require_sender. destruct (from_user message); [apply silent_ret|apply silent_raise].
Qed.

Ltac one_reply :=
  repeat first
    [ apply replies_once_answer
    | apply replies_once_bind;
      [ first [ apply silent_require_sender | apply silent_track | apply silent_is_admin
              | apply silent_query | apply silent_read_clock | apply silent_update
              | apply silent_try_update ]
      | intros ]
    | match goal with
      | |- replies_once (if ?b then _ else _) => destruct b
      | |- replies_once (match ?x with _ => _ end) => destruct x
      end ].

(** X15.  Every command is answered once: a handler that returns has sent
    exactly one reply, and a handler that ends with an exception has sent
    none. *)
Theorem handlers_reply_once (cmd : Command) (message : Message)
    (command : option (option string)) (env : Env) (w : World) :
  match run (handle cmd message command) env w with
  | Done _ w' => exists r, st_sent w' = st_sent w ++ [r]
  | Raised _ w' => st_sent w' = st_sent w
  end.
Proof.
  assert (Hk : replies_once (handle cmd message command)).
  { destruct cmd; open_handler; one_reply. }
  exact (Hk env w).
Qed.

(** X16.  A message without sender makes every handler fail with
    [AttributeError] at its first line, before anything is read, written or
    sent. *)
Theorem missing_sender_raises (cmd : Command) (message : Message)
    (command : option (option string)) (env : Env) (w : World) :
  from_user message = None ->
  run (handle cmd message command) env w = Raised AttributeError w.
Proof.
  intros Hs.
  assert (E : require_sender message env w = Raised AttributeError w)
    by (unfold require_sender; now rewrite Hs).
  destruct cmd; open_handler; now rewrite (bind_raised _ _ _ _ _ _ E).
Qed.

(** X17.  Outside groups and supergroups the mutating commands answer that
    they are meant for groups.  The membership query is not made (the
    answer is the same whatever it would return or raise), no warning record
    changes, and the directory is as tracking left it. *)
Theorem outside_groups_refused (cmd : Command) (message : Message)
    (command : option (option string)) (env : Env) (w : World) (sender : User) :
  from_user message = Some sender ->
  is_allowed (Some (u_id sender)) = true ->
  mutating cmd = true ->
  in_group message = false ->
  run (handle cmd message command) env w
  = Done tt (mkWorld (st_db (after_tracking message env w))
                     (st_tick (after_tracking message env w))
                     (st_sent w ++ [R_GroupsOnly]))
  /\ warns (st_db (after_tracking message env w)) = warns (st_db w)
  /\ (forall answers,
        after_tracking message (mkEnv answers (utcnow env)) w
        = after_tracking message env w
        /\ run (handle cmd message command) (mkEnv answers (utcnow env)) w
           = run (handle cmd message command) env w).
Proof.
  intros Hs Ha Hm Hg.
  pose proof (after_tracking_ledger message env w) as (Hw & _ & Hsent).
  assert (Hrun : forall env',
            run (handle cmd message command) env' w
            = Done tt (mkWorld (st_db (after_tracking message env' w))
                               (st_tick (after_tracking message env' w))
                               (st_sent w ++ [R_GroupsOnly]))).
  { intros env'.
    pose proof (require_sender_done message sender env' w Hs) as E.
    pose proof (after_tracking_ledger message env' w) as (_ & _ & Hsent').
    destruct cmd; try discriminate; open_handler; step E; rewrite Ha; cbn [negb];
      step (track_done message env' w); rewrite Hg; cbn [negb];
      unfold answer; now rewrite Hsent'. }
  split; [apply Hrun|]. split; [exact Hw|].
  intros answers.
  assert (Htrack : after_tracking message (mkEnv answers (utcnow env)) w
                   = after_tracking message env w).
  { unfold after_tracking, track_message_participants, upsert_now, bind, read_clock.
    destruct (from_user message), (reply_author message); reflexivity. }
  split; [exact Htrack|]. now rewrite !Hrun, Htrack.
Qed.

End OneReply.

Lemma missing_sender_raises_witness :
  run (handle Warn (mkMessage None group100 None (Some "/warn"%string) None None) (Some None))
      env_admin (start_of sample_ledger)
  = Raised AttributeError (start_of sample_ledger).
Proof.
  apply (@missing_sender_raises Latin1 Warn
           (mkMessage None group100 None (Some "/warn"%string) None None)).
  reflexivity.
Defined.

Lemma outside_groups_refused_witness :
  run (handle FullAmnesty
         (mkMessage (Some operator) (mkChat 578664673 "private") None
                    (Some "/fullamnesty"%string) None None) (Some None))
      env_forbidden (start_of sample_ledger)
  = Done tt (mkWorld (participant_upsert 578664673 (Some operator) (noon 0%nat) sample_ledger)
                     1 [R_GroupsOnly]).
Proof.
  destruct (@outside_groups_refused Latin1 FullAmnesty
              (mkMessage (Some operator) (mkChat 578664673 "private") None
                         (Some "/fullamnesty"%string) None None)
              (Some None) env_forbidden (start_of sample_ledger) operator
              eq_refl eq_refl eq_refl eq_refl) as [Hrun _].
  rewrite Hrun. reflexivity.
Defined.

(** *** The mutating commands when they go through, bot.py 327-397, 456-524 *)

Lemma count_kind_snoc (k : string) (rows : list WarnRow) (x : WarnRow) :
  count_kind k (rows ++ [x])
  = count_kind k rows + (if String.eqb (w_warn_type x) k then 1 else 0).
Proof.
  rewrite count_kind_app. f_equal. unfold count_kind. cbn [filter].
  now destruct (String.eqb (w_warn_type x) k).
Qed.

Section Granted.
Context `{PyText}.

(** X18.  /warn and /hardwarn from an allow-listed administrator in a
    group, with a resolved target and a rowid left, store exactly one
    record: it is appended with the next id, the target's id and label, the
    kind of the command, the sanitised arguments as reason, the sender as
    issuer and the clock reading as timestamp; all other records stay.  The
    target's count of that kind goes up by one, the other count stays, and
    the reply names the target and the reason. *)
Theorem warning_issued (severe : bool) (message : Message)
    (command : option (option string)) (env : Env) (w : World)
    (sender : User) (t : Target) :
  from_user message = Some sender ->
  is_allowed (Some (u_id sender)) = true ->
  in_group message = true ->
  admin_granted env (chat_id (chat message)) (u_id sender) = true ->
  extract_target_user message (st_db (after_tracking message env w)) = Some t ->
  warns_seq (st_db w) < max_rowid ->
  let cmd := if severe then HardWarn else Warn in
  let kind := if severe then "hard"%string else "warn"%string in
  let c := chat_id (chat message) in
  let w1 := after_tracking message env w in
  let reason := clean_reason (command_args command) in
  let row := mkWarn (warns_seq (st_db w) + 1) c (target_id t) (Some (target_label t))
                    kind (Some reason) (Some (u_id sender))
                    (Some (user_full_name sender)) (utcnow env (st_tick w1)) in
  let db' := mkDB (warns (st_db w) ++ [row]) (warns_seq (st_db w) + 1)
                  (participants (st_db w1)) in
  run (handle cmd message command) env w
  = Done tt (mkWorld db' (S (st_tick w1))
               (st_sent w ++ [R_WarnIssued cmd (target_id t) (target_label t) reason]))
  /\ get_user_counts c (target_id t) db'
     = (fst (get_user_counts c (target_id t) (st_db w)) + (if severe then 0 else 1),
        snd (get_user_counts c (target_id t) (st_db w)) + (if severe then 1 else 0)).
Proof.
  intros Hs Ha Hg Hadm Ht Hroom cmd kind c w1 reason row db'.
  pose proof (require_sender_done message sender env w Hs) as Es.
  pose proof (after_tracking_ledger message env w) as (Hw & Hq & Hsent).
  fold w1 in Hw, Hq, Hsent, Ht.
  assert (Hq' : query (extract_target_user message) env w1 = Done (Some t) w1)
    by (unfold query; now rewrite Ht).
  assert (Hstored : match or_none (Some reason) with
                    | Some s => s | None => EmptyString end = reason)
    by (now destruct reason).
  assert (Hadd : forall k, valid_warn_type k = true ->
            add_warn c (target_id t) (target_label t) k (Some reason) (Some (u_id sender))
                     (Some (user_full_name sender)) (utcnow env (st_tick w1)) (st_db w1)
            = inr (mkDB (warns (st_db w) ++
                         [mkWarn (warns_seq (st_db w) + 1) c (target_id t)
                                 (Some (target_label t)) k (Some reason)
                                 (Some (u_id sender)) (Some (user_full_name sender))
                                 (utcnow env (st_tick w1))])
                        (warns_seq (st_db w) + 1) (participants (st_db w1)))).
  { intros k Hk. unfold add_warn. rewrite Hk, Hq, Hw, Hstored. cbn [negb].
    now destruct (Z.leb_spec max_rowid (warns_seq (st_db w))); [lia|]. }
  split.
  - unfold cmd, kind, row in *. unfold db'.
    destruct severe; open_handler; step Es; rewrite Ha; cbn [negb];
      step (track_done message env w); rewrite Hg; cbn [negb]; fold w1;
      step (is_admin_granted env _ _ w1 Hadm); cbn [negb]; step Hq';
      unfold bind, read_clock, try_update; cbn [st_db st_tick st_sent]; fold c;
      rewrite Hadd by reflexivity; unfold answer; cbn [st_db st_tick st_sent];
      now rewrite Hsent.
  - rewrite !get_user_counts_eq. unfold db'. cbn [warns].
    rewrite filter_snoc, of_pair_refl by reflexivity.
    rewrite !count_kind_snoc. unfold row, kind. cbn [w_warn_type].
    destruct severe; cbn; f_equal; lia.
Qed.

(** X19.  /fullamnesty from an allow-listed administrator in a group, with
    a resolved target, deletes every record of the target in that chat and
    no other record: the target's listing is empty and its counts (0, 0)
    afterwards, and each other pair keeps its records. *)
Theorem full_amnesty_applied (message : Message) (command : option (option string))
    (env : Env) (w : World) (sender : User) (t : Target) :
  from_user message = Some sender ->
  is_allowed (Some (u_id sender)) = true ->
  in_group message = true ->
  admin_granted env (chat_id (chat message)) (u_id sender) = true ->
  extract_target_user message (st_db (after_tracking message env w)) = Some t ->
  let c := chat_id (chat message) in
  let w1 := after_tracking message env w in
  let db' := amnesty_full c (target_id t) (st_db w1) in
  run (handle FullAmnesty message command) env w
  = Done tt (mkWorld db' (st_tick w1)
               (st_sent w ++ [R_FullAmnestyApplied (target_id t) (target_label t)]))
  /\ get_user_warns c (target_id t) db' = []
  /\ get_user_counts c (target_id t) db' = (0, 0)
  /\ (forall c' u', (c', u') <> (c, target_id t) ->
        filter (of_pair c' u') (warns db') = filter (of_pair c' u') (warns (st_db w))).
Proof.
  intros Hs Ha Hg Hadm Ht c w1 db'.
  pose proof (require_sender_done message sender env w Hs) as Es.
  pose proof (after_tracking_ledger message env w) as (Hw & Hq & Hsent).
  fold w1 in Hw, Hq, Hsent, Ht.
  assert (Hq' : query (extract_target_user message) env w1 = Done (Some t) w1)
    by (unfold query; now rewrite Ht).
  split; [|split; [|split]].
  - open_handler. step Es. rewrite Ha. cbn [negb].
    step (track_done message env w). rewrite Hg. cbn [negb]. fold w1.
    step (is_admin_granted env _ _ w1 Hadm). cbn [negb]. step Hq'.
    unfold bind, update, answer. cbn [st_db st_tick st_sent]. now rewrite Hsent.
  - unfold get_user_warns, db', amnesty_full. cbn [warns]. now rewrite filter_same_pair.
  - rewrite get_user_counts_eq. unfold db', amnesty_full. cbn [warns].
    now rewrite filter_same_pair.
  - intros c' u' Hne. unfold db', amnesty_full. cbn [warns].
    rewrite filter_other_pair by exact Hne. now rewrite Hw.
Qed.

(** X20.  /amnesty without a usable count is turned down: with no
    arguments, with arguments that leave no token once the @handles are
    removed, with a first token that is not an integer, or with a count of
    zero or less, the answer is the usage hint and no record is deleted. *)
Theorem amnesty_bad_arguments (message : Message) (command : option (option string))
    (env : Env) (w : World) (sender : User) (t : Target) :
  from_user message = Some sender ->
  is_allowed (Some (u_id sender)) = true ->
  in_group message = true ->
  admin_granted env (chat_id (chat message)) (u_id sender) = true ->
  extract_target_user message (st_db (after_tracking message env w)) = Some t ->
  let w1 := after_tracking message env w in
  (count_rejected (fst (parse_amnesty command)) = true ->
   run (handle Amnesty message command) env w
   = Done tt (mkWorld (st_db w1) (st_tick w1) (st_sent w ++ [R_BadArguments]))
   /\ warns (st_db w1) = warns (st_db w))
  /\ (command_args command = None -> count_rejected (fst (parse_amnesty command)) = true)
  /\ (forall a, command_args command = Some a -> amnesty_parts (py_strip a) = [] ->
        count_rejected (fst (parse_amnesty command)) = true)
  /\ (forall a p0 rest, command_args command = Some a ->
        amnesty_parts (py_strip a) = p0 :: rest ->
        py_int p0 = None \/ (exists n, py_int p0 = Some n /\ n <= 0) ->
        count_rejected (fst (parse_amnesty command)) = true).
Proof.
  intros Hs Ha Hg Hadm Ht w1.
  pose proof (require_sender_done message sender env w Hs) as Es.
  pose proof (after_tracking_ledger message env w) as (Hw & Hq & Hsent).
  fold w1 in Hw, Hq, Hsent, Ht.
  assert (Hq' : query (extract_target_user message) env w1 = Done (Some t) w1)
    by (unfold query; now rewrite Ht).
  split; [|split; [|split]].
  - intros Hrej. split; [|exact Hw].
    open_handler. step Es. rewrite Ha. cbn [negb].
    step (track_done message env w). rewrite Hg. cbn [negb]. fold w1.
    step (is_admin_granted env _ _ w1 Hadm). cbn [negb]. step Hq'.
    destruct (parse_amnesty command) as [count kind]. cbn [fst] in Hrej.
    rewrite Hrej. unfold answer. now rewrite Hsent.
  - intros E. unfold parse_amnesty. now rewrite E.
  - intros a E Hparts. unfold parse_amnesty. rewrite E, Hparts.
    now destruct (truthy (py_strip a)).
  - intros a p0 rest E Hparts Hbad. unfold parse_amnesty. rewrite E, Hparts.
    destruct (truthy (py_strip a)); [|reflexivity]. cbn [fst].
    destruct Hbad as [-> | [n [-> Hn]]]; [reflexivity|].
    unfold count_rejected. apply orb_true_iff. right. now apply Z.leb_le.
Qed.

End Granted.

Lemma filter_within {A} (p q : A -> bool) (l : list A) :
  (forall x, In x l -> p x = true -> q x = true) ->
  filter p (filter q l) = filter p l.
Proof.
  induction l as [|x t IH]; intros Hpq; cbn [filter]; [reflexivity|].
  assert (IH' : filter p (filter q t) = filter p t)
    by (apply IH; intros y Hy; apply Hpq; now right).
  destruct (p x) eqn:Ep.
  - rewrite (Hpq x (or_introl eq_refl) Ep). cbn [filter]. now rewrite Ep, IH'.
  - destruct (q x); cbn [filter]; rewrite ?Ep; exact IH'.
Qed.

Lemma find_present {A} (f : A -> bool) (l : list A) (x : A) :
  In x l -> f x = true -> find f l <> None.
Proof.
  intros Hin Hx Hnone. pose proof (find_none f l Hnone x Hin). congruence.
Qed.

Lemma upsert_row_keeps (row p : ParticipantRow) (rows : list ParticipantRow) :
  In p rows -> same_participant (p_chat_id row) (p_user_id row) p = false ->
  In p (upsert_row row rows).
Proof.
  intros Hin Hp. induction rows as [|x t IH]; [contradiction|]. simpl.
  destruct Hin as [->|Hin].
  - rewrite Hp. now left.
  - destruct (same_participant (p_chat_id row) (p_user_id row) x); right; auto.
Qed.

Section MoreCommands.
Context `{PyText}.

(** X21.  /amnesty with a positive count and the scope word "warn" or
    "hard" (in any letter case) deletes records of that kind only: the
    first min(count, n) of the subject's n records of the kind in listing
    order.  The records of the other kind, of the subject and of everybody
    else, all stay, and the reply reports the count and the scope. *)
Theorem amnesty_scoped (message : Message) (command : option (option string))
    (env : Env) (w : World) (sender : User) (t : Target)
    (a p0 p1 : string) (rest : list string) (n : Z) (kind : string) :
  from_user message = Some sender ->
  is_allowed (Some (u_id sender)) = true ->
  in_group message = true ->
  admin_granted env (chat_id (chat message)) (u_id sender) = true ->
  extract_target_user message (st_db (after_tracking message env w)) = Some t ->
  wf (st_db w) ->
  command_args command = Some a ->
  amnesty_parts (py_strip a) = p0 :: p1 :: rest ->
  py_int p0 = Some n ->
  0 < n <= max_rowid ->
  py_lower p1 = kind ->
  kind = "warn"%string \/ kind = "hard"%string ->
  let c := chat_id (chat message) in
  let listing := order_by_recency (qualifying c (target_id t) kind (st_db w)) in
  let k := Z.min n (Z.of_nat (List.length listing)) in
  let deleted := firstn (Z.to_nat k) listing in
  exists w',
    run (handle Amnesty message command) env w = Done tt w'
    /\ Permutation (warns (st_db w)) (deleted ++ warns (st_db w'))
    /\ Z.of_nat (List.length deleted) = k
    /\ (forall d, In d deleted ->
          w_warn_type d = kind /\ of_pair c (target_id t) d = true)
    /\ filter (fun r => negb (String.eqb (w_warn_type r) kind)) (warns (st_db w'))
       = filter (fun r => negb (String.eqb (w_warn_type r) kind)) (warns (st_db w))
    /\ st_sent w'
       = st_sent w ++ [R_AmnestyApplied (target_id t) (target_label t) n kind
                         (fst (get_user_counts c (target_id t) (st_db w')))
                         (snd (get_user_counts c (target_id t) (st_db w')))].
Proof.
  intros Hs Ha Hg Hadm Ht Hwf Hargs Hparts Hint Hn Hlow Hkind c listing k deleted.
  set (w1 := after_tracking message env w) in *.
  pose proof (require_sender_done message sender env w Hs) as Es.
  pose proof (after_tracking_ledger message env w) as (Hw & Hq & Hsent).
  fold w1 in Hw, Hq, Hsent.
  assert (Hvalid : valid_warn_type kind = true)
    by (destruct Hkind as [-> | ->]; reflexivity).
  assert (Hscope : scope_word (py_lower p1) = true)
    by (rewrite Hlow; destruct Hkind as [-> | ->]; reflexivity).
  assert (Hids : NoDup (map w_id (warns (st_db w1))))
    by (rewrite Hw; apply (wf_ids _ Hwf)).
  assert (H0 : 0 <= n) by lia.
  assert (Hqual : qualifying c (target_id t) kind (st_db w1)
                  = qualifying c (target_id t) kind (st_db w))
    by (unfold qualifying; now rewrite Hw).
  assert (Hlen : List.length listing
                 = List.length (qualifying c (target_id t) kind (st_db w1))).
  { unfold listing. rewrite Hqual. apply Permutation_length, order_by_recency_perm. }
  assert (Hdel : amnesty_victims c (target_id t) n kind (st_db w1) = deleted).
  { rewrite (victims_firstn c (target_id t) n kind (st_db w1) H0).
    unfold deleted, k. rewrite Hlen. unfold listing. now rewrite Hqual. }
  set (db' := delete_ids (map w_id (amnesty_victims c (target_id t) n kind (st_db w1)))
                         (st_db w1)).
  assert (Hin : forall d, In d deleted ->
                  In d (warns (st_db w)) /\ of_pair c (target_id t) d = true
                  /\ w_warn_type d = kind).
  { intros d Hd. rewrite <- Hdel in Hd.
    apply (victims_qualify c (target_id t) n kind (st_db w1) H0) in Hd.
    rewrite Hqual in Hd. now apply (qualifying_kind _ _ _ _ _ Hvalid) in Hd. }
  exists (mkWorld db' (st_tick w1)
            (st_sent w ++ [R_AmnestyApplied (target_id t) (target_label t) n kind
                             (fst (get_user_counts c (target_id t) db'))
                             (snd (get_user_counts c (target_id t) db'))])).
  split; [|split; [|split; [|split; [|split; [|reflexivity]]]]]; cbn [st_db st_sent].
  - assert (Hq' : query (extract_target_user message) env w1 = Done (Some t) w1)
      by (unfold query; now rewrite Ht).
    open_handler. step Es. rewrite Ha. cbn [negb].
    step (track_done message env w). rewrite Hg. cbn [negb]. fold w1.
    step (is_admin_granted env _ _ w1 Hadm). cbn [negb]. step Hq'.
    rewrite (parse_amnesty_recognised command a p0 p1 rest Hargs Hparts Hscope).
    rewrite Hint, Hlow. unfold count_rejected.
    destruct (Z.eqb_spec n 0); [lia|]. destruct (Z.leb_spec n 0); [lia|]. cbn [orb].
    unfold bind, try_update, amnesty_partial. fold c.
    rewrite fits_int64_count by lia. cbn [negb]. fold db'.
    unfold query, answer. simpl. now rewrite Hsent.
  - rewrite <- Hdel, <- Hw. apply deleted_perm; auto.
  - rewrite <- Hdel, (victims_length c (target_id t) n kind (st_db w1) H0).
    unfold k. now rewrite Hlen.
  - intros d Hd. destruct (Hin d Hd) as (_ & Hp & Hk). auto.
  - unfold db', delete_ids. cbn [warns]. rewrite Hw, Hdel.
    apply filter_within. intros r Hr Hother.
    apply negb_true_iff. destruct (id_in (map w_id deleted) r) eqn:E; [|reflexivity].
    exfalso.
    assert (Hincl : incl deleted (warns (st_db w)))
      by (intros d Hd; now destruct (Hin d Hd)).
    apply (id_in_rows _ _ _ (wf_ids _ Hwf) Hincl Hr) in E.
    destruct (Hin r E) as (_ & _ & Hk).
    rewrite Hk, String.eqb_refl in Hother. discriminate.
Qed.

(** X22.  /warns from an allow-listed sender reports on the resolved target,
    or on the sender when nobody is named.  Without records the reply says
    so; otherwise it carries the two counts, the first 20 entries of the
    newest-first listing and, exactly when there are more than 20, the
    number of entries left out.  Shown and left-out entries add up to the
    sum of the two counts. *)
Theorem warns_reply_contents (message : Message) (command : option (option string))
    (env : Env) (w : World) (sender : User) :
  from_user message = Some sender ->
  is_allowed (Some (u_id sender)) = true ->
  let c := chat_id (chat message) in
  let w1 := after_tracking message env w in
  let subject := match extract_target_user message (st_db w1) with
                 | Some t => t
                 | None => TUser sender
                 end in
  let listing := get_user_warns c (target_id subject) (st_db w) in
  let n := Z.of_nat (List.length listing) in
  exists reply,
    run (handle Warns message command) env w
    = Done tt (mkWorld (st_db w1) (st_tick w1) (st_sent w ++ [reply]))
    /\ (listing = [] -> reply = R_NoWarns (target_id subject) (target_label subject))
    /\ (listing <> [] ->
        exists wc hc shown omitted,
          reply = R_WarnsList (target_id subject) (target_label subject)
                              wc hc shown omitted
          /\ (wc, hc) = get_user_counts c (target_id subject) (st_db w)
          /\ shown = firstn 20 listing
          /\ Z.of_nat (List.length shown) = Z.min 20 n
          /\ (n <= 20 -> omitted = None)
          /\ (20 < n -> omitted = Some (n - 20))
          /\ (wf (st_db w) -> wc + hc = n)).
Proof.
  intros Hs Ha c w1 subject listing n.
  pose proof (after_tracking_ledger message env w) as (Hw & _ & _). fold w1 in Hw.
  assert (Hl : get_user_warns c (target_id subject) (st_db w1) = listing)
    by (unfold listing, get_user_warns; now rewrite Hw).
  assert (Hc : get_user_counts c (target_id subject) (st_db w1)
               = get_user_counts c (target_id subject) (st_db w))
    by (rewrite !get_user_counts_eq; now rewrite Hw).
  exists (warns_reply c subject (st_db w1)). split; [|split].
  - unfold run, handle. now rewrite (cmd_warns_reply message sender env w Hs Ha).
  - intros E. unfold warns_reply. now rewrite Hl, E.
  - intros Hne.
    assert (Hmatch : forall (l : list WarnView) (X Y : Reply),
              l <> [] -> match l with [] => X | _ :: _ => Y end = Y)
      by (intros [|v l] X Y Hl'; [contradiction|reflexivity]).
    unfold warns_reply. rewrite Hl, Hc, (Hmatch listing _ _ Hne).
    eexists _, _, _, _. split; [reflexivity|].
    split; [now destruct (get_user_counts _ _ _)|]. split; [reflexivity|].
    split; [rewrite length_firstn; unfold n; lia|].
    fold n. split; [|split].
    + intros Hle. now destruct (Z.ltb_spec 20 n); [lia|].
    + intros Hgt. now destruct (Z.ltb_spec 20 n); [|lia].
    + intros Hwf. rewrite (counts_total _ _ _ (wf_kinds _ Hwf)).
      unfold n, listing, get_user_warns, pair_total.
      now rewrite length_map, (Permutation_length (order_by_recency_perm _)).
Qed.

(** X23.  Tracking makes the accounts of a command reachable by handle:
    once the message has been tracked, the handle of the replied-to author
    resolves in the chat, and so does the sender's unless the replied-to
    author is the same account. *)
Theorem tracking_registers_handles (message : Message) (env : Env) (w : World)
    (sender : User) :
  from_user message = Some sender ->
  let c := chat_id (chat message) in
  let db1 := st_db (after_tracking message env w) in
  (forall u h, reply_author message = Some u ->
     u_username u = Some h -> truthy h = true -> truthy (py_lower h) = true ->
     find_participant_by_username c (py_lower h) db1 <> None)
  /\ (forall h, u_username sender = Some h -> truthy h = true ->
        truthy (py_lower h) = true ->
        (forall u, reply_author message = Some u -> u_id u <> u_id sender) ->
        find_participant_by_username c (py_lower h) db1 <> None).
Proof.
  intros Hs c db1.
  pose proof (after_tracking_directory message sender env w Hs) as Hdir.
  fold db1 in Hdir. fold c in Hdir.
  assert (Hfind : forall p x, In p (participants db1) -> handle_matches c x p = true ->
                    find_participant_by_username c x db1 <> None).
  { intros p x Hp Hm. unfold find_participant_by_username.
    pose proof (find_present _ _ p Hp Hm) as Hne.
    now destruct (find (handle_matches c x) (participants db1)). }
  split.
  - intros u h Hr Hu Hh Hl.
    apply (Hfind (participant_row c u (utcnow env (S (st_tick w))))).
    + rewrite Hdir, Hr. apply upsert_row_holds.
    + now apply participant_row_matches.
  - intros h Hu Hh Hl Hother.
    apply (Hfind (participant_row c sender (utcnow env (st_tick w)))).
    + rewrite Hdir. destruct (reply_author message) as [u|] eqn:Er.
      * apply upsert_row_keeps; [apply upsert_row_holds|].
        unfold same_participant. simpl.
        destruct (Z.eqb_spec (u_id sender) (u_id u)) as [E|E].
        -- exfalso. apply (Hother u eq_refl). congruence.
        -- apply andb_false_r.
      * apply upsert_row_holds.
    + now apply participant_row_matches.
Qed.

End MoreCommands.

(** *** Concrete runs of the commands *)

Lemma read_only_commands_keep_ledger_witness :
  warns (st_db (world_of (run (handle AllWarns (command_from operator None "/allwarns")
                                      (Some None))
                              env_forbidden (start_of sample_ledger))))
  = warns sample_ledger.
Proof.
  exact (proj1 (@read_only_commands_keep_ledger Latin1 AllWarns
                  (command_from operator None "/allwarns") (Some None)
                  env_forbidden (start_of sample_ledger) eq_refl)).
Defined.

Lemma warning_issued_witness :
  exists w',
    run (handle HardWarn (command_from operator (Some dave) "/hardwarn spam @dave")
                (Some (Some "spam @dave"%string)))
        env_admin (start_of sample_ledger) = Done tt w'
    /\ get_user_counts 100 7 (st_db w') = (3, 2)
    /\ st_sent w' = [R_WarnIssued HardWarn 7 "Dave" "spam"].
Proof.
  destruct (@warning_issued Latin1 true
              (command_from operator (Some dave) "/hardwarn spam @dave")
              (Some (Some "spam @dave"%string)) env_admin (start_of sample_ledger)
              operator (TUser dave) eq_refl eq_refl eq_refl eq_refl eq_refl)
    as [Hrun Hcounts].
  - unfold max_rowid. simpl. lia.
  - eexists. split; [exact Hrun|]. split; reflexivity.
Defined.

Lemma full_amnesty_applied_witness :
  exists w',
    run (handle FullAmnesty (command_from operator (Some dave) "/fullamnesty")
                (Some None))
        env_admin (start_of sample_ledger) = Done tt w'
    /\ map w_id (warns (st_db w')) = [3]
    /\ st_sent w' = [R_FullAmnestyApplied 7 "Dave"].
Proof.
  destruct (@full_amnesty_applied Latin1
              (command_from operator (Some dave) "/fullamnesty") (Some None)
              env_admin (start_of sample_ledger) operator (TUser dave)
              eq_refl eq_refl eq_refl eq_refl eq_refl) as [Hrun _].
  eexists. split; [exact Hrun|]. split; reflexivity.
Defined.

Lemma amnesty_bad_arguments_witness :
  run (handle Amnesty (command_from operator (Some dave) "/amnesty lots")
              (Some (Some "lots"%string)))
      env_admin (start_of sample_ledger)
  = Done tt (mkWorld
               (participant_upsert 100 (Some dave) (noon 1%nat)
                  (participant_upsert 100 (Some operator) (noon 0%nat) sample_ledger))
               2 [R_BadArguments]).
Proof.
  destruct (@amnesty_bad_arguments Latin1
              (command_from operator (Some dave) "/amnesty lots")
              (Some (Some "lots"%string)) env_admin (start_of sample_ledger)
              operator (TUser dave) eq_refl eq_refl eq_refl eq_refl eq_refl)
    as [Hrej _].
  destruct (Hrej eq_refl) as [Hrun _]. rewrite Hrun. reflexivity.
Defined.

Lemma amnesty_scoped_witness :
  exists w',
    run (handle Amnesty (command_from operator (Some dave) "/amnesty 2 HARD")
                (Some (Some "2 HARD"%string)))
        env_admin (start_of sample_ledger) = Done tt w'
    /\ map w_id (warns (st_db w')) = [1; 3; 4; 5]
    /\ st_sent w' = [R_AmnestyApplied 7 "Dave" 2 "hard" 3 0].
Proof.
  destruct (@amnesty_scoped Latin1
              (command_from operator (Some dave) "/amnesty 2 HARD")
              (Some (Some "2 HARD"%string)) env_admin (start_of sample_ledger)
              operator (TUser dave) "2 HARD" "2" "HARD" [] 2 "hard"
              eq_refl eq_refl eq_refl eq_refl eq_refl sample_ledger_wf
              eq_refl eq_refl eq_refl
              (conj (eq_refl : (0 ?= 2) = Lt)
                    (fun E : (2 ?= max_rowid) = Gt => ltac:(discriminate E)))
              eq_refl (or_intror eq_refl)) as (w' & E & _).
  exists w'. split; [exact E|]. vm_compute in E. injection E as <-.
  split; reflexivity.
Defined.

Lemma warns_reply_contents_witness :
  exists reply,
    run (handle Warns (command_from operator (Some dave) "/warns") (Some None))
        env_member (start_of sample_ledger)
    = Done tt (mkWorld
                 (participant_upsert 100 (Some dave) (noon 1%nat)
                    (participant_upsert 100 (Some operator) (noon 0%nat) sample_ledger))
                 2 [reply])
    /\ reply = R_WarnsList 7 "Dave" 3 1 (get_user_warns 100 7 sample_ledger) None.
Proof.
  destruct (@warns_reply_contents Latin1
              (command_from operator (Some dave) "/warns") (Some None)
              env_member (start_of sample_ledger) operator eq_refl eq_refl)
    as (reply & Hrun & _).
  exists reply. split; [exact Hrun|].
  vm_compute in Hrun. injection Hrun as <-. reflexivity.
Defined.

Lemma tracking_registers_handles_witness :
  find_participant_by_username 100 "dave"
    (st_db (after_tracking (command_from operator (Some dave) "/warn")
                           env_admin (start_of db_init))) <> None
  /\ find_participant_by_username 100 "op"
       (st_db (after_tracking (command_from operator (Some dave) "/warn")
                              env_admin (start_of db_init))) <> None.
Proof.
  destruct (@tracking_registers_handles Latin1
              (command_from operator (Some dave) "/warn") env_admin
              (start_of db_init) operator eq_refl) as [Hreply Hsender].
  split.
  - apply (Hreply dave "dave"%string); reflexivity.
  - apply (Hsender "op"%string); try reflexivity.
    intros u E. injection E as <-. simpl. lia.
Defined.
